(** * boot-splash: SSD1351 early boot splash (nixos/pkgs/boot-splash.c)

    A shallow embedding of the C program and the properties of its
    frame composition, panel protocol, SPI chunking, animation loop and
    process lifecycle.

    Conventions of the embedding.
    - C [int] values are mathematical integers [Z].  The arithmetic of
      [draw_scanner] goes through the checked operations of [CInt], which
      report signed overflow and division by zero (both undefined
      behaviour in C) instead of inventing a value.
    - [uint8_t] and [uint16_t] values are [Z] with the conversion written
      out ([to_uint8], [to_uint16]).
    - Arrays ([framebuf], [welcome_image], the byte buffers handed to the
      SPI layer) are lists; an indexed store is stdpp's list insert.  All
      indices the program computes are in range, which is what the
      lookup lemmas below establish.
    - System calls are recorded as an ordered list of [event]s.  The
      results the kernel hands back ([open], the line request [ioctl])
      come from an [env] record. *)

From Stdlib Require Import ZArith Lia.
From stdpp Require Import base decidable list list_numbers strings.
From Equations Require Import Equations.

#[local] Open Scope Z_scope.

(** ** Constants *)

Definition WIDTH : Z := 128.
Definition HEIGHT : Z := 128.
Definition SPI_DEVICE : string := "/dev/spidev0.0".
Definition SPI_SPEED : Z := 40000000.
Definition GPIO_DC : Z := 24.
Definition GPIO_RST : Z := 25.
Definition COL_BLACK : Z := 0x0000.
Definition COL_RED : Z := 0x001F.

(** Number of pixels of a frame, [WIDTH * HEIGHT], as a list length. *)
Definition NPIX : nat := Z.to_nat (WIDTH * HEIGHT).

Definition to_uint8 (z : Z) : Z := z mod 256.
Definition to_uint16 (z : Z) : Z := z mod 65536.

(** ** Checked C [int] arithmetic *)

Module CInt.

Inductive ub := DivByZero | Overflow.

Inductive res (A : Type) :=
| Ok (a : A)
| Undef (u : ub).
Arguments Ok {A} a.
Arguments Undef {A} u.

Definition bind {A B} (m : res A) (k : A -> res B) : res B :=
  match m with
  | Ok a => k a
  | Undef u => Undef u
  end.

Definition INT_MIN : Z := -2147483648.
Definition INT_MAX : Z := 2147483647.

Definition in_int (z : Z) : bool := (INT_MIN <=? z) && (z <=? INT_MAX).

Definition check (z : Z) : res Z :=
  if in_int z then Ok z else Undef Overflow.

Definition sub (a b : Z) : res Z := check (a - b).
Definition mul (a b : Z) : res Z := check (a * b).
Definition abs (a : Z) : res Z := check (Z.abs a).
Definition div (a b : Z) : res Z :=
  if b =? 0 then Undef DivByZero else check (Z.quot a b).

End CInt.

Import CInt.

#[global] Instance res_ret : MRet res := @Ok.
#[global] Instance res_bind : MBind res := fun A B k m => CInt.bind m k.

(** ** Process state *)

(** The file-scope variables of the program.  [dc_req] and [rst_req] keep
    the [fd] field of the two [gpio_v2_line_request] structures, the only
    field the program reads back. *)
Record globals := mkGlobals {
  spi_fd : Z;
  gpio_fd : Z;
  dc_req : Z;
  rst_req : Z;
  framebuf : list Z
}.

(** Static initialisation: the two descriptors are [-1], the request
    structures and the frame buffer are zero-filled. *)
Definition initial_globals : globals :=
  {| spi_fd := -1; gpio_fd := -1; dc_req := 0; rst_req := 0;
     framebuf := replicate NPIX 0 |}.

Definition set_spi_fd (v : Z) (g : globals) : globals :=
  {| spi_fd := v; gpio_fd := gpio_fd g; dc_req := dc_req g;
     rst_req := rst_req g; framebuf := framebuf g |}.
Definition set_gpio_fd (v : Z) (g : globals) : globals :=
  {| spi_fd := spi_fd g; gpio_fd := v; dc_req := dc_req g;
     rst_req := rst_req g; framebuf := framebuf g |}.
Definition set_dc_req (v : Z) (g : globals) : globals :=
  {| spi_fd := spi_fd g; gpio_fd := gpio_fd g; dc_req := v;
     rst_req := rst_req g; framebuf := framebuf g |}.
Definition set_rst_req (v : Z) (g : globals) : globals :=
  {| spi_fd := spi_fd g; gpio_fd := gpio_fd g; dc_req := dc_req g;
     rst_req := v; framebuf := framebuf g |}.
Definition set_framebuf (v : list Z) (g : globals) : globals :=
  {| spi_fd := spi_fd g; gpio_fd := gpio_fd g; dc_req := dc_req g;
     rst_req := rst_req g; framebuf := v |}.

(** What the kernel answers during [hw_init]: the two [open] results
    (negative on failure) and, for each line request, [None] when the
    [ioctl] fails or [Some fd] with the descriptor it stored in the
    request. *)
Record env := mkEnv {
  env_open_spi : Z;
  env_open_gpio : Z;
  env_line_dc : option Z;
  env_line_rst : option Z
}.

(** Observable actions, in program order.  [Open] and [Get_line] carry
    what the kernel answered. *)
Inductive event :=
| Signal_install (signo : string)
| Open (path : string) (ret : Z)
| Spi_setup (fd : Z) (request : string) (value : Z)
| Get_line (chip_fd : Z) (pin : Z) (ret : option Z)
| Gpio_set (fd : Z) (bits : Z)
| Spi_message (fd : Z) (tx : list Z) (speed_hz : Z) (bits_per_word : Z)
| Nanosleep (ms : Z)
| Close (fd : Z)
| Perror (prefix : string)
| Stderr (msg : string).

(** ** GPIO and SPI transport *)

Definition msleep (ms : Z) : list event := [Nanosleep ms].

Definition gpio_request_line (chip_fd pin : Z) (answer : option Z) (req : Z)
  : Z * Z * list event :=
  match answer with
  | None =>
      (-1, req, [Get_line chip_fd pin None; Perror "GPIO_V2_GET_LINE_IOCTL"])
  | Some fd => (0, fd, [Get_line chip_fd pin (Some fd)])
  end.

Definition gpio_set (req : Z) (value : Z) : list event :=
  [Gpio_set req (if value =? 0 then 0 else 1)].

Definition chunk_size : nat := 4096.

(** [while (len > 0)]: one transfer of [this_len] bytes, then the pointer
    and the remaining length move on by [this_len]. *)
Equations? spi_write (g : globals) (data : list Z) : list event
  by wf (length data) lt :=
  spi_write g data with decide (0 < length data)%nat => {
    | right _ := [];
    | left _ :=
        let this_len :=
          if decide (chunk_size < length data)%nat then chunk_size
          else length data in
        Spi_message (spi_fd g) (take this_len data) SPI_SPEED 8
          :: spi_write g (drop this_len data) }.
Proof.
  rewrite length_drop. subst this_len. unfold chunk_size.
  destruct (decide _); lia.
Qed.

(** ** SSD1351 panel driver *)

Definition ssd1351_cmd (g : globals) (cmd : Z) : list event :=
  gpio_set (dc_req g) 0 ++ spi_write g [cmd].

Definition ssd1351_data (g : globals) (data : list Z) : list event :=
  gpio_set (dc_req g) 1 ++ spi_write g data.

Definition ssd1351_init (g : globals) : list event :=
  (* Hardware reset *)
  gpio_set (rst_req g) 1 ++ msleep 10 ++
  gpio_set (rst_req g) 0 ++ msleep 10 ++
  gpio_set (rst_req g) 1 ++ msleep 10 ++
  ssd1351_cmd g 0xFD ++ ssd1351_data g [0x12] ++
  ssd1351_cmd g 0xFD ++ ssd1351_data g [0xB1] ++
  ssd1351_cmd g 0xAE ++
  ssd1351_cmd g 0xB3 ++ ssd1351_data g [0xF1] ++
  ssd1351_cmd g 0xCA ++ ssd1351_data g [0x7F] ++
  ssd1351_cmd g 0x15 ++ ssd1351_data g [0x00; 0x7F] ++
  ssd1351_cmd g 0x75 ++ ssd1351_data g [0x00; 0x7F] ++
  ssd1351_cmd g 0xA0 ++ ssd1351_data g [0x74] ++
  ssd1351_cmd g 0xA1 ++ ssd1351_data g [0x00] ++
  ssd1351_cmd g 0xA2 ++ ssd1351_data g [0x00] ++
  ssd1351_cmd g 0xB5 ++ ssd1351_data g [0x00] ++
  ssd1351_cmd g 0xAB ++ ssd1351_data g [0x01] ++
  ssd1351_cmd g 0xB1 ++ ssd1351_data g [0x32] ++
  ssd1351_cmd g 0xB4 ++ ssd1351_data g [0xA0; 0xB5; 0x55] ++
  ssd1351_cmd g 0xBE ++ ssd1351_data g [0x05] ++
  ssd1351_cmd g 0xC7 ++ ssd1351_data g [0x0F] ++
  ssd1351_cmd g 0xB6 ++ ssd1351_data g [0x01] ++
  ssd1351_cmd g 0xA6 ++
  ssd1351_cmd g 0xC1 ++ ssd1351_data g [0xFF; 0xFF; 0xFF].

(** The loop of [ssd1351_flush] stores [buf[2i]] and [buf[2i+1]] for
    [i = 0, 1, ...] in increasing order, so the buffer it builds is the
    concatenation of the byte pairs in index order. *)
Fixpoint flush_buf (fb : list Z) (idx : list nat) : list Z :=
  match idx with
  | [] => []
  | i :: idx' =>
      let p := fb !!! i in
      to_uint8 (Z.shiftr p 8) :: to_uint8 (Z.land p 0xFF) :: flush_buf fb idx'
  end.

Definition ssd1351_flush (g : globals) : list event :=
  ssd1351_cmd g 0x15 ++ ssd1351_data g [0x00; 0x7F] ++
  ssd1351_cmd g 0x75 ++ ssd1351_data g [0x00; 0x7F] ++
  ssd1351_cmd g 0x5C ++
  ssd1351_data g (flush_buf (framebuf g) (seq 0 NPIX)).

(** ** Frame composition *)

(** [memcpy(dst, src, n)] on arrays of at least [n] elements. *)
Definition memcpy (dst src : list Z) (n : nat) : list Z :=
  take n src ++ drop n dst.

(** The colour of column [x]: the body of the outer loop of
    [draw_scanner] up to the assignment of [color]. *)
Definition scanner_color (center scanner_width x : Z) : res Z :=
  d ← CInt.sub x center;
  dist ← CInt.abs d;
  if dist <? scanner_width then
    m ← CInt.mul dist 31;
    q ← CInt.div m scanner_width;
    i ← CInt.sub 31 q;
    let intensity := if i <? 8 then 8 else i in
    Ok (Z.land (to_uint16 intensity) 0x1F)
  else Ok COL_BLACK.

(** The inner loop: [framebuf[y * WIDTH + x] = color] for
    [y = y_start .. HEIGHT - 1]. *)
Definition fill_column (y_start x color : Z) (fb : list Z) : list Z :=
  foldl (fun fb y => <[Z.to_nat (y * WIDTH + x) := color]> fb) fb
        (seqZ y_start (HEIGHT - y_start)).

(** The outer loop over the columns [xs]. *)
Fixpoint scan_columns (center scanner_width : Z) (xs : list Z) (fb : list Z)
  : res (list Z) :=
  match xs with
  | [] => Ok fb
  | x :: xs' =>
      color ← scanner_color center scanner_width x;
      scan_columns center scanner_width xs' (fill_column (HEIGHT - 4) x color fb)
  end.

(** The frame [draw_scanner] leaves in [framebuf] before it flushes. *)
Definition compose (welcome_image fb : list Z) (pos scanner_width : Z)
  : res (list Z) :=
  let fb0 := memcpy fb welcome_image NPIX in
  scan_columns pos scanner_width (seqZ 0 WIDTH) fb0.

Definition draw_scanner (welcome_image : list Z) (g : globals)
  (pos scanner_width : Z) : res (globals * list event) :=
  fb ← compose welcome_image (framebuf g) pos scanner_width;
  let g' := set_framebuf fb g in
  Ok (g', ssd1351_flush g').

(** ** Hardware set-up and tear-down *)

Definition hw_init (e : env) (g : globals) : Z * globals * list event :=
  let g := set_spi_fd (env_open_spi e) g in
  let ev := [Open SPI_DEVICE (env_open_spi e)] in
  if spi_fd g <? 0 then (-1, g, ev ++ [Perror "open spi"]) else
  let ev := ev ++ [Spi_setup (spi_fd g) "SPI_IOC_WR_MODE" 0;
                   Spi_setup (spi_fd g) "SPI_IOC_WR_BITS_PER_WORD" 8;
                   Spi_setup (spi_fd g) "SPI_IOC_WR_MAX_SPEED_HZ" SPI_SPEED] in
  let g := set_gpio_fd (env_open_gpio e) g in
  let ev := ev ++ [Open "/dev/gpiochip0" (env_open_gpio e)] in
  if gpio_fd g <? 0 then (-1, g, ev ++ [Perror "open gpiochip0"]) else
  let '(rc, dc, ev_dc) :=
    gpio_request_line (gpio_fd g) GPIO_DC (env_line_dc e) (dc_req g) in
  let g := set_dc_req dc g in
  let ev := ev ++ ev_dc in
  if rc <? 0 then (-1, g, ev) else
  let '(rc, rst, ev_rst) :=
    gpio_request_line (gpio_fd g) GPIO_RST (env_line_rst e) (rst_req g) in
  let g := set_rst_req rst g in
  let ev := ev ++ ev_rst in
  if rc <? 0 then (-1, g, ev) else
  (0, g, ev ++ ssd1351_init g).

Definition hw_cleanup (g : globals) : list event :=
  (if 0 <? dc_req g then [Close (dc_req g)] else []) ++
  (if 0 <? rst_req g then [Close (rst_req g)] else []) ++
  (if 0 <=? gpio_fd g then [Close (gpio_fd g)] else []) ++
  (if 0 <=? spi_fd g then [Close (spi_fd g)] else []).

(** ** Animation loop *)

(** The update of [pos] and [dir] in the body of the [while] loop. *)
Definition advance (scanner_width : Z) (st : Z * Z) : Z * Z :=
  let '(pos, dir) := st in
  let pos := pos + dir * 4 in
  if WIDTH - Z.quot scanner_width 2 <=? pos then
    (WIDTH - Z.quot scanner_width 2, -1)
  else if pos <=? Z.quot scanner_width 2 then
    (Z.quot scanner_width 2, 1)
  else (pos, dir).

Definition scanner_width : Z := 20.

(** [pos] and [dir] as the loop condition is evaluated for the [n]-th
    time, counting from zero. *)
Definition anim_state (n : nat) : Z * Z :=
  Nat.iter n (advance scanner_width) (0, 1).

(** The [while (running)] loop when the flag is read non-zero [n] times
    and zero on the next read. *)
Fixpoint main_loop (welcome_image : list Z) (n : nat) (g : globals)
  (st : Z * Z) : res (globals * list event) :=
  match n with
  | O => Ok (g, [])
  | S n' =>
      '(g1, ev1) ← draw_scanner welcome_image g (fst st) scanner_width;
      '(g2, ev2) ← main_loop welcome_image n' g1 (advance scanner_width st);
      Ok (g2, ev1 ++ msleep 30 ++ ev2)
  end.

Definition init_failed_msg : string :=
  "Hardware init failed" +:+ String (Ascii.ascii_of_nat 10) EmptyString.

(** [main]: the exit status and everything the process did. *)
Definition main (welcome_image : list Z) (e : env) (n : nat)
  : res (Z * list event) :=
  let ev0 := [Signal_install "SIGTERM"; Signal_install "SIGINT"] in
  let '(rc, g, ev1) := hw_init e initial_globals in
  if rc <? 0 then
    Ok (1, ev0 ++ ev1 ++ [Stderr init_failed_msg] ++ hw_cleanup g)
  else
    let ev2 := ssd1351_cmd g 0xAF in
    '(g', ev3) ← main_loop welcome_image n g (0, 1);
    Ok (0, ev0 ++ ev1 ++ ev2 ++ ev3 ++ hw_cleanup g').

(** ** The loop under asynchronous signal delivery *)

Module Loop.

(** Program points of the loop of [main]. *)
Inductive pc := AtCheck | AtCompose | AtFlush | AtAdvance | AtSleep
              | AtCleanup | Exited.

Record state := mkState {
  at_pc : pc;
  running : bool;
  pos_dir : Z * Z;
  composed : nat;      (* frames composed so far *)
  flushed : nat;       (* frames flushed so far *)
  cleanups : nat       (* calls of hw_cleanup so far *)
}.

Definition initial : state :=
  {| at_pc := AtCheck; running := true; pos_dir := (0, 1);
     composed := 0; flushed := 0; cleanups := 0 |}.

(** [signal_handler]: all it does is clear the flag. *)
Definition signal_handler (s : state) : state :=
  {| at_pc := at_pc s; running := false; pos_dir := pos_dir s;
     composed := composed s; flushed := flushed s; cleanups := cleanups s |}.

(** One step of the main thread. *)
Definition step (s : state) : state :=
  match at_pc s with
  | AtCheck =>
      {| at_pc := if running s then AtCompose else AtCleanup;
         running := running s; pos_dir := pos_dir s;
         composed := composed s; flushed := flushed s;
         cleanups := cleanups s |}
  | AtCompose =>
      {| at_pc := AtFlush; running := running s; pos_dir := pos_dir s;
         composed := S (composed s); flushed := flushed s;
         cleanups := cleanups s |}
  | AtFlush =>
      {| at_pc := AtAdvance; running := running s; pos_dir := pos_dir s;
         composed := composed s; flushed := S (flushed s);
         cleanups := cleanups s |}
  | AtAdvance =>
      {| at_pc := AtSleep; running := running s;
         pos_dir := advance scanner_width (pos_dir s);
         composed := composed s; flushed := flushed s;
         cleanups := cleanups s |}
  | AtSleep =>
      {| at_pc := AtCheck; running := running s; pos_dir := pos_dir s;
         composed := composed s; flushed := flushed s;
         cleanups := cleanups s |}
  | AtCleanup =>
      {| at_pc := Exited; running := running s; pos_dir := pos_dir s;
         composed := composed s; flushed := flushed s;
         cleanups := S (cleanups s) |}
  | Exited => s
  end.

(** The program points inside the [while] loop. *)
Definition in_loop (p : pc) : Prop :=
  match p with
  | AtCleanup | Exited => False
  | _ => True
  end.

(** A schedule says, before each step of the main thread, whether a
    SIGTERM or SIGINT is delivered at that point. *)
Fixpoint run (sched : list bool) (s : state) : state :=
  match sched with
  | [] => s
  | sig :: sched' =>
      run sched' (step (if sig then signal_handler s else s))
  end.

End Loop.

(** ** What the panel sees *)

(** The bytes clocked out over SPI, each tagged with the level of the
    data/command line ([dc]) at that moment: [false] is a command byte,
    [true] a data byte. *)
Fixpoint wire (dc : Z) (level : bool) (tr : list event) : list (bool * Z) :=
  match tr with
  | [] => []
  | Gpio_set fd bits :: tr' =>
      if fd =? dc then wire dc (negb (bits =? 0)) tr' else wire dc level tr'
  | Spi_message _ tx _ _ :: tr' => map (pair level) tx ++ wire dc level tr'
  | _ :: tr' => wire dc level tr'
  end.

Definition commands (w : list (bool * Z)) : list Z :=
  map snd (filter (fun b => fst b = false) w).

(** The payloads of the SPI transfers of a trace, in order. *)
Fixpoint transfers (tr : list event) : list (list Z) :=
  match tr with
  | [] => []
  | Spi_message _ tx _ _ :: tr' => tx :: transfers tr'
  | _ :: tr' => transfers tr'
  end.

Fixpoint closes (tr : list event) : list Z :=
  match tr with
  | [] => []
  | Close fd :: tr' => fd :: closes tr'
  | _ :: tr' => closes tr'
  end.

(** What reaches the standard error stream: the prefixes handed to
    [perror] and the strings printed with [fprintf(stderr, ...)]. *)
Fixpoint stderr_lines (tr : list event) : list string :=
  match tr with
  | [] => []
  | Perror m :: tr' => m :: stderr_lines tr'
  | Stderr m :: tr' => m :: stderr_lines tr'
  | _ :: tr' => stderr_lines tr'
  end.

(** The SSD1351 commands the program uses, by their data-sheet names. *)
Inductive command :=
| CommandLock | DisplayOff | DisplayOn | ClockDiv | MuxRatio
| SetColumn | SetRow | SetRemap | StartLine | DisplayOffset | SetGpio
| FunctionSelect | Precharge | Precharge2 | SetVsl | Vcomh
| ContrastMaster | NormalDisplay | ContrastAbc | WriteRam.

Definition opcode (c : command) : Z :=
  match c with
  | CommandLock => 0xFD | DisplayOff => 0xAE | DisplayOn => 0xAF
  | ClockDiv => 0xB3 | MuxRatio => 0xCA
  | SetColumn => 0x15 | SetRow => 0x75 | SetRemap => 0xA0
  | StartLine => 0xA1 | DisplayOffset => 0xA2 | SetGpio => 0xB5
  | FunctionSelect => 0xAB | Precharge => 0xB1 | Precharge2 => 0xB6
  | SetVsl => 0xB4 | Vcomh => 0xBE | ContrastMaster => 0xC7
  | NormalDisplay => 0xA6 | ContrastAbc => 0xC1 | WriteRam => 0x5C
  end.


(** The initialisation sequence as data: each command with its
    parameter bytes, in the order [ssd1351_init] sends them. *)
Definition init_table : list (command * list Z) :=
  [ (CommandLock, [0x12]); (CommandLock, [0xB1]); (DisplayOff, []);
    (ClockDiv, [0xF1]); (MuxRatio, [0x7F]);
    (SetColumn, [0x00; 0x7F]); (SetRow, [0x00; 0x7F]);
    (SetRemap, [0x74]); (StartLine, [0x00]); (DisplayOffset, [0x00]);
    (SetGpio, [0x00]); (FunctionSelect, [0x01]); (Precharge, [0x32]);
    (SetVsl, [0xA0; 0xB5; 0x55]); (Vcomh, [0x05]); (ContrastMaster, [0x0F]);
    (Precharge2, [0x01]); (NormalDisplay, []);
    (ContrastAbc, [0xFF; 0xFF; 0xFF]) ].

Definition frame_of (c : command * list Z) : list (bool * Z) :=
  (false, opcode (fst c)) :: map (pair true) (snd c).

Definition init_stream : list (bool * Z) := concat (map frame_of init_table).

(** The order of commands as the specification lists it: the two
    pre-charge stages next to each other, no display-off. *)
Definition spec_init_commands : list command :=
  [ CommandLock; CommandLock; ClockDiv; MuxRatio; SetColumn; SetRow;
    SetRemap; StartLine; DisplayOffset; SetGpio; FunctionSelect;
    Precharge; Precharge2; SetVsl; Vcomh; ContrastMaster; NormalDisplay;
    ContrastAbc ].

(** High byte first, then low byte, of one 16-bit pixel. *)
Definition pixel_bytes (p : Z) : list Z := [p / 256 mod 256; p mod 256].

(** What the panel is to see on a flush of the frame [fb]. *)
Definition flush_stream (fb : list Z) : list (bool * Z) :=
  [ (false, opcode SetColumn); (true, 0x00); (true, 0x7F);
    (false, opcode SetRow); (true, 0x00); (true, 0x7F);
    (false, opcode WriteRam) ]
  ++ map (pair true) (fb ≫= pixel_bytes).

(** The events of the hardware reset that opens [ssd1351_init]. *)
Definition reset_pulse (g : globals) : list event :=
  [ Gpio_set (rst_req g) 1; Nanosleep 10;
    Gpio_set (rst_req g) 0; Nanosleep 10;
    Gpio_set (rst_req g) 1; Nanosleep 10 ].

(** Whether a computation ended in a division by zero. *)
Definition is_div_by_zero {A : Type} (r : res A) : bool :=
  match r with
  | Undef DivByZero => true
  | _ => false
  end.

(** The index of the pixel in row [y], column [x]. *)
Definition pixel_index (x y : Z) : nat := Z.to_nat (y * WIDTH + x).

(** The red intensity of the scanner at distance [dist] from its centre. *)
Definition gradient (dist : Z) : Z := Z.max 8 (31 - dist * 31 / 20).

(** The descriptors the kernel handed out, in the order of the calls. *)
Fixpoint opened (tr : list event) : list Z :=
  match tr with
  | [] => []
  | Open _ ret :: tr' => if 0 <=? ret then ret :: opened tr' else opened tr'
  | Get_line _ _ (Some fd) :: tr' => fd :: opened tr'
  | _ :: tr' => opened tr'
  end.

(** Events of the panel bus: they open nothing, close nothing and print
    nothing. *)
Definition bus_event (ev : event) : Prop :=
  match ev with
  | Gpio_set _ _ | Spi_message _ _ _ _ | Nanosleep _ => True
  | _ => False
  end.

(** [hw_init] succeeds when both devices open and both lines are granted. *)
Definition init_ok (e : env) : bool :=
  (0 <=? env_open_spi e) && (0 <=? env_open_gpio e)
  && bool_decide (is_Some (env_line_dc e))
  && bool_decide (is_Some (env_line_rst e)).

(** The kernel never hands out descriptor 0 for a line: by then the SPI
    device, opened first, holds a descriptor, and descriptors are
    allotted lowest first. *)
Definition lines_positive (e : env) : Prop :=
  (∀ fd, env_line_dc e = Some fd → 0 < fd) ∧
  (∀ fd, env_line_rst e = Some fd → 0 < fd).

(** The position and direction of the scanner after [n] updates, in
    closed form: 27 steps up from 10 to 118, 27 steps down, and again. *)
Definition triangle (n : nat) : Z * Z :=
  let k := Z.of_nat n mod 54 in
  if k <? 27 then (10 + 4 * k, 1) else (118 - 4 * (k - 27), -1).

(** What holds of [pos] and [dir] whenever the loop condition is
    evaluated for the [n]-th time. *)
Definition anim_inv (n : nat) (st : Z * Z) : Prop :=
  (snd st = 1 ∨ snd st = -1) ∧ 0 ≤ fst st ≤ 118 ∧
  (n ≠ 0%nat → 10 ≤ fst st) ∧
  (snd st = 1 → fst st < 118) ∧ (snd st = -1 → 10 < fst st).

(** The range of [pos] and the values of [dir] the loop keeps to. *)
Definition anim_ok (st : Z * Z) : Prop :=
  0 ≤ fst st ≤ 118 ∧ (snd st = 1 ∨ snd st = -1).

(** ** Further definitions *)

(** The [timespec] that [msleep] hands to [nanosleep]: seconds and
    nanoseconds, with the truncating division and remainder of C. *)
Definition msleep_timespec (ms : Z) : Z * Z :=
  (Z.quot ms 1000, Z.rem ms 1000 * 1000000).

(** A 16-bit pixel value. *)
Definition uint16 (p : Z) : Prop := 0 ≤ p < 65536.

(** The panel's reading of the pixel bytes: two bytes make a pixel, high
    byte first. *)
Fixpoint decode_pixels (bs : list Z) : list Z :=
  match bs with
  | hi :: lo :: bs' => (hi * 256 + lo) :: decode_pixels bs'
  | _ => []
  end.

(** A schedule with every signal after the first one removed. *)
Fixpoint first_signal_only (sched : list bool) : list bool :=
  match sched with
  | [] => []
  | true :: sched' => true :: replicate (length sched') false
  | false :: sched' => false :: first_signal_only sched'
  end.

(** The frame composed at position [pos] with width [sw] over the
    background, by the column loop of [draw_scanner]. *)
Definition frame_at (welcome_image : list Z) (pos sw : Z) : list Z :=
  match scan_columns pos sw (seqZ 0 WIDTH) welcome_image with
  | Ok frame => frame
  | Undef _ => []
  end.

(** The lengths of the transfers of a trace. *)
Definition transfer_sizes (tr : list event) : list nat :=
  map length (transfers tr).

(** The GPIO writes of a trace: descriptor and bit. *)
Fixpoint gpio_sets (tr : list event) : list (Z * Z) :=
  match tr with
  | [] => []
  | Gpio_set fd bits :: tr' => (fd, bits) :: gpio_sets tr'
  | _ :: tr' => gpio_sets tr'
  end.

(** What the loop keeps true of its counters, by program point. *)
Definition loop_inv (s : Loop.state) : Prop :=
  match Loop.at_pc s with
  | Loop.AtFlush =>
      Loop.composed s = S (Loop.flushed s) ∧ Loop.cleanups s = 0%nat
  | Loop.AtCleanup =>
      Loop.composed s = Loop.flushed s ∧ Loop.cleanups s = 0%nat ∧
      Loop.running s = false
  | Loop.Exited =>
      Loop.composed s = Loop.flushed s ∧ Loop.cleanups s = 1%nat ∧
      Loop.running s = false
  | _ => Loop.composed s = Loop.flushed s ∧ Loop.cleanups s = 0%nat
  end.

(** The level of the data/command line after a trace. *)
Fixpoint dc_level (dc : Z) (level : bool) (tr : list event) : bool :=
  match tr with
  | [] => level
  | Gpio_set fd bits :: tr' =>
      dc_level dc (if fd =? dc then negb (bits =? 0) else level) tr'
  | _ :: tr' => dc_level dc level tr'
  end.

(** Case analysis on every test of the goal. *)
Ltac split_ifs :=
  repeat match goal with
         | |- context [if ?b then _ else _] => destruct b eqn:?
         end;
  rewrite ?Z.ltb_lt, ?Z.ltb_ge, ?Z.leb_le, ?Z.leb_gt in *.

(** * Properties *)

(** ** SPI transport *)

Lemma chunk_size_Z : Z.of_nat chunk_size = 4096.
Proof. reflexivity. Qed.

Lemma NPIX_Z : Z.of_nat NPIX = 16384.
Proof. unfold NPIX. by rewrite Z2Nat.id. Qed.

Lemma spi_write_nil g : spi_write g [] = [].
Proof. by simp spi_write. Qed.

Lemma spi_write_step g data :
  data ≠ [] →
  spi_write g data =
    Spi_message (spi_fd g) (take (chunk_size `min` length data) data) SPI_SPEED 8
      :: spi_write g (drop (chunk_size `min` length data) data).
Proof.
  intros Hne.
  assert (Hmin : (chunk_size `min` length data)%nat
                 = if decide (chunk_size < length data)%nat then chunk_size
                   else length data).
  { destruct (decide _); [apply Nat.min_l | apply Nat.min_r]; lia. }
  rewrite Hmin. rewrite (spi_write_equation_1 g data).
  destruct (decide (0 < length data)%nat) as [Hpos|Hz]; [reflexivity|].
  destruct data; [done | simpl in Hz; lia].
Qed.

(** Induction over the iterations of the [while] loop of [spi_write]. *)
Lemma spi_write_ind (P : list Z → Prop) :
  P [] →
  (∀ data, data ≠ [] → P (drop (chunk_size `min` length data) data) → P data) →
  ∀ data, P data.
Proof.
  intros Hnil Hstep data.
  remember (length data) as n eqn:Hn. revert data Hn.
  induction n as [n IH] using lt_wf_ind. intros data Hn.
  destruct data as [|b rest]; [exact Hnil|].
  apply Hstep; [done|].
  eapply IH; [|reflexivity]. rewrite length_drop. subst n.
  pose proof chunk_size_Z. simpl in *. lia.
Qed.

Lemma spi_write_events g data :
  spi_write g data =
    map (fun t => Spi_message (spi_fd g) t SPI_SPEED 8)
        (transfers (spi_write g data)).
Proof.
  induction data as [|data Hne IH] using spi_write_ind.
  - by rewrite spi_write_nil.
  - rewrite (spi_write_step g data Hne) at 2. cbn [transfers map].
    rewrite <- IH. apply (spi_write_step g data Hne).
Qed.

Lemma spi_write_concat g data : concat (transfers (spi_write g data)) = data.
Proof.
  induction data as [|data Hne IH] using spi_write_ind.
  - by rewrite spi_write_nil.
  - rewrite (spi_write_step g data Hne). cbn [transfers concat]. rewrite IH.
    apply take_drop.
Qed.

Lemma spi_write_count g data :
  Z.of_nat (length (transfers (spi_write g data)))
  = (Z.of_nat (length data) + 4095) / 4096.
Proof.
  induction data as [|data Hne IH] using spi_write_ind.
  - by rewrite spi_write_nil.
  - rewrite (spi_write_step g data Hne). cbn [transfers length].
    rewrite Nat2Z.inj_succ, IH, length_drop.
    assert (0 < length data)%nat by (destruct data; simpl; [done|lia]).
    pose proof chunk_size_Z.
    destruct (Nat.min_spec chunk_size (length data)) as [[? ->]|[? ->]];
      Z.div_mod_to_equations; lia.
Qed.

Lemma spi_write_bounded g data :
  Forall (fun t => 0 < Z.of_nat (length t) <= 4096) (transfers (spi_write g data)).
Proof.
  induction data as [|data Hne IH] using spi_write_ind.
  - rewrite spi_write_nil. constructor.
  - rewrite (spi_write_step g data Hne). cbn [transfers]. constructor; [|exact IH].
    rewrite length_take.
    assert (0 < length data)%nat by (destruct data; simpl; [done|lia]).
    pose proof chunk_size_Z. lia.
Qed.

Lemma spi_write_last g data :
  (fun t => Z.of_nat (length t)) <$> last (transfers (spi_write g data))
  = if Z.of_nat (length data) =? 0 then None
    else Some (if Z.of_nat (length data) mod 4096 =? 0 then 4096
               else Z.of_nat (length data) mod 4096).
Proof.
  induction data as [|data Hne IH] using spi_write_ind.
  - by rewrite spi_write_nil.
  - rewrite (spi_write_step g data Hne). cbn [transfers].
    assert (Hpos : (0 < length data)%nat) by (destruct data; simpl; [done|lia]).
    pose proof chunk_size_Z as Hc.
    pose proof (spi_write_count g (drop (chunk_size `min` length data) data)) as Hcnt.
    rewrite length_drop in IH, Hcnt.
    destruct (transfers (spi_write g (drop (chunk_size `min` length data) data)))
      as [|t ts] eqn:Hts.
    + cbn [last fmap option_fmap option_map length] in *. rewrite length_take.
      repeat case_match; f_equal;
        rewrite ?Z.eqb_eq, ?Z.eqb_neq in *; Z.div_mod_to_equations; lia.
    + rewrite last_cons_cons, IH.
      cbn [length] in Hcnt.
      repeat case_match; f_equal;
        rewrite ?Z.eqb_eq, ?Z.eqb_neq in *; Z.div_mod_to_equations; lia.
Qed.

(** C3. A transport write of [L] bytes is exactly [ceil(L / 4096)] SPI
    transfers and nothing else, each of 1 to 4096 bytes, which put end
    to end are the payload; the last one carries [L mod 4096] bytes, or
    4096 when [L] is a non-zero multiple of 4096 (a write of no bytes
    makes no transfer). *)
Theorem spi_write_chunking (g : globals) (data : list Z) :
  let ts := transfers (spi_write g data) in
  let L := Z.of_nat (length data) in
  spi_write g data = map (fun t => Spi_message (spi_fd g) t SPI_SPEED 8) ts ∧
  Z.of_nat (length ts) = (L + 4095) / 4096 ∧
  Forall (fun t => 0 < Z.of_nat (length t) <= 4096) ts ∧
  concat ts = data ∧
  (fun t => Z.of_nat (length t)) <$> last ts
  = if L =? 0 then None
    else Some (if L mod 4096 =? 0 then 4096 else L mod 4096).
Proof.
  repeat split.
  - apply spi_write_events.
  - apply spi_write_count.
  - apply spi_write_bounded.
  - apply spi_write_concat.
  - apply spi_write_last.
Qed.

(** ** What the panel sees of commands and data *)

Lemma wire_transfers dc lvl fd sp bw ts rest :
  wire dc lvl (map (fun t => Spi_message fd t sp bw) ts ++ rest)
  = map (pair lvl) (concat ts) ++ wire dc lvl rest.
Proof.
  induction ts as [|t ts IH]; [done|].
  cbn [map app wire concat]. by rewrite IH, map_app, app_assoc.
Qed.

Lemma wire_spi_write dc lvl g data rest :
  wire dc lvl (spi_write g data ++ rest)
  = map (pair lvl) data ++ wire dc lvl rest.
Proof.
  rewrite spi_write_events, wire_transfers. by rewrite spi_write_concat.
Qed.

Lemma wire_cmd g lvl c rest :
  wire (dc_req g) lvl (ssd1351_cmd g c ++ rest)
  = (false, c) :: wire (dc_req g) false rest.
Proof.
  unfold ssd1351_cmd, gpio_set. cbn [app wire].
  rewrite Z.eqb_refl. cbn [Z.eqb negb]. by rewrite wire_spi_write.
Qed.

Lemma wire_data g lvl data rest :
  wire (dc_req g) lvl (ssd1351_data g data ++ rest)
  = map (pair true) data ++ wire (dc_req g) true rest.
Proof.
  unfold ssd1351_data, gpio_set. cbn [app wire].
  rewrite Z.eqb_refl. cbn [Z.eqb negb]. by rewrite wire_spi_write.
Qed.

Lemma wire_cmd_end g lvl c :
  wire (dc_req g) lvl (ssd1351_cmd g c) = [(false, c)].
Proof. by rewrite <- (app_nil_r (ssd1351_cmd g c)), wire_cmd. Qed.

Lemma wire_data_end g lvl data :
  wire (dc_req g) lvl (ssd1351_data g data) = map (pair true) data.
Proof.
  rewrite <- (app_nil_r (ssd1351_data g data)), wire_data.
  apply app_nil_r.
Qed.

Lemma commands_data (bs : list Z) : commands (map (pair true) bs) = [].
Proof. induction bs as [|b bs IH]; [done|]. exact IH. Qed.

Lemma to_uint8_high (p : Z) : to_uint8 (Z.shiftr p 8) = p / 256 mod 256.
Proof. unfold to_uint8. by rewrite Z.shiftr_div_pow2. Qed.

Lemma to_uint8_low (p : Z) : to_uint8 (Z.land p 0xFF) = p mod 256.
Proof.
  unfold to_uint8. change 0xFF with (Z.ones 8).
  rewrite Z.land_ones by done. change (2 ^ 8) with 256.
  by rewrite Z.mod_mod.
Qed.

Lemma flush_buf_app (pre fb : list Z) :
  flush_buf (pre ++ fb) (seq (length pre) (length fb)) = fb ≫= pixel_bytes.
Proof.
  revert pre. induction fb as [|p fb IH]; intros pre; [done|].
  cbn [length seq flush_buf]. rewrite list_lookup_total_middle by done.
  rewrite to_uint8_high, to_uint8_low.
  rewrite (cons_middle p pre fb), app_assoc.
  replace (S (length pre)) with (length (pre ++ [p]))
    by (rewrite length_app; simpl; lia).
  by rewrite IH.
Qed.

Lemma flush_buf_frame (fb : list Z) :
  length fb = NPIX → flush_buf fb (seq 0 NPIX) = fb ≫= pixel_bytes.
Proof. intros <-. apply (flush_buf_app [] fb). Qed.

Lemma length_pixel_bytes (fb : list Z) :
  length (fb ≫= pixel_bytes) = (2 * length fb)%nat.
Proof.
  induction fb as [|p fb IH]; [done|].
  rewrite bind_cons, length_app, IH. simpl. lia.
Qed.

(** C2. Whatever the frame buffer holds, a flush shows the panel one
    set-column command with parameters 0 and 127, one set-row command
    with parameters 0 and 127, one write-RAM command, and then the
    32768 data bytes of the pixels in buffer order, the high byte of
    each pixel before its low byte. *)
Theorem ssd1351_flush_wire (g : globals) (lvl : bool) :
  length (framebuf g) = NPIX →
  wire (dc_req g) lvl (ssd1351_flush g) = flush_stream (framebuf g) ∧
  commands (wire (dc_req g) lvl (ssd1351_flush g))
  = [opcode SetColumn; opcode SetRow; opcode WriteRam] ∧
  Z.of_nat (length (framebuf g ≫= pixel_bytes)) = WIDTH * HEIGHT * 2.
Proof.
  intros Hlen.
  assert (Hw : wire (dc_req g) lvl (ssd1351_flush g) = flush_stream (framebuf g)).
  { unfold ssd1351_flush.
    repeat first [rewrite wire_cmd | rewrite wire_data].
    rewrite wire_data_end.
    by rewrite flush_buf_frame. }
  split; [exact Hw|]. split.
  - rewrite Hw. unfold flush_stream, commands.
    rewrite filter_app, map_app. fold (commands (map (pair true) (framebuf g ≫= pixel_bytes))).
    by rewrite commands_data.
  - rewrite length_pixel_bytes, Hlen. pose proof NPIX_Z. unfold WIDTH, HEIGHT. lia.
Qed.

(** The statically initialised (all zero) frame buffer is a frame. *)
Lemma ssd1351_flush_wire_initial :
  wire (dc_req initial_globals) false (ssd1351_flush initial_globals)
    = flush_stream (framebuf initial_globals) ∧
  commands (wire (dc_req initial_globals) false (ssd1351_flush initial_globals))
    = [opcode SetColumn; opcode SetRow; opcode WriteRam] ∧
  Z.of_nat (length (framebuf initial_globals ≫= pixel_bytes))
    = WIDTH * HEIGHT * 2.
Proof.
  apply (ssd1351_flush_wire initial_globals false). vm_compute. reflexivity.
Defined.

(** ** The initialisation sequence *)

Lemma ssd1351_init_reset (g : globals) :
  ssd1351_init g = reset_pulse g ++ drop 6 (ssd1351_init g).
Proof. reflexivity. Qed.

Lemma ssd1351_init_wire (g : globals) (lvl : bool) :
  wire (dc_req g) lvl (ssd1351_init g) = init_stream.
Proof.
  unfold ssd1351_init, msleep, gpio_set. cbn [app wire Z.eqb].
  destruct (rst_req g =? dc_req g);
    repeat first [rewrite wire_cmd | rewrite wire_data];
    by rewrite wire_data_end.
Qed.

(** C5 (as the code has it). After the reset pulse, [ssd1351_init]
    shows the panel exactly the commands of [init_table] with their
    parameters, in that order: the two command-lock writes, display
    off, clock divider, mux ratio, column window 0..127, row window
    0..127, colour depth and order, start line, display offset, GPIO,
    function select, first pre-charge, segment low voltage, VCOMH,
    master contrast, second pre-charge, normal display, per-channel
    contrast.  No display-on command is among them; [main] sends it
    next. *)
Theorem ssd1351_init_sequence (g : globals) (lvl : bool) :
  ssd1351_init g = reset_pulse g ++ drop 6 (ssd1351_init g) ∧
  wire (dc_req g) lvl (reset_pulse g) = [] ∧
  wire (dc_req g) lvl (ssd1351_init g) = init_stream ∧
  commands init_stream
  = map opcode
      [ CommandLock; CommandLock; DisplayOff; ClockDiv; MuxRatio;
        SetColumn; SetRow; SetRemap; StartLine; DisplayOffset; SetGpio;
        FunctionSelect; Precharge; SetVsl; Vcomh; ContrastMaster;
        Precharge2; NormalDisplay; ContrastAbc ] ∧
  (opcode DisplayOn ∉ commands init_stream) ∧
  wire (dc_req g) lvl (ssd1351_init g ++ ssd1351_cmd g 0xAF)
  = init_stream ++ [(false, opcode DisplayOn)].
Proof.
  split; [apply ssd1351_init_reset|].
  split.
  { unfold reset_pulse. cbn [wire]. by destruct (rst_req g =? dc_req g). }
  split; [apply ssd1351_init_wire|].
  split; [by vm_compute|].
  split.
  { vm_compute. intros Hin. repeat (apply elem_of_cons in Hin as [Hin|Hin]; [discriminate Hin|]).
    by apply elem_of_nil in Hin. }
  unfold ssd1351_init, msleep, gpio_set. cbn [app wire Z.eqb].
  rewrite <- !app_assoc.
  destruct (rst_req g =? dc_req g);
    repeat first [rewrite wire_cmd | rewrite wire_data];
    by rewrite wire_cmd_end.
Qed.

(** C5, the order in the specification: it is not the order of the
    code, which sends display-off after the unlock and the second
    pre-charge stage only after the master contrast. *)
Lemma ssd1351_init_not_spec_order :
  commands (wire (dc_req initial_globals) false (ssd1351_init initial_globals))
  ≠ map opcode spec_init_commands.
Proof. vm_compute. intros H. discriminate H. Qed.

(** ** Frame composition *)

Lemma bind_Ok {A B : Type} (a : A) (k : A → res B) : (x ← Ok a; k x) = k a.
Proof. reflexivity. Qed.

Lemma check_ok (z : Z) : INT_MIN ≤ z ≤ INT_MAX → check z = Ok z.
Proof.
  intros [Hlo Hhi]. unfold check, in_int.
  apply Z.leb_le in Hlo, Hhi. by rewrite Hlo, Hhi.
Qed.

Lemma gradient_range (dist : Z) : 0 ≤ dist → 8 ≤ gradient dist ≤ 31.
Proof.
  intros Hd. unfold gradient.
  assert (0 ≤ dist * 31 / 20) by (apply Z.div_pos; lia). lia.
Qed.

Lemma low5_small (v : Z) : 0 ≤ v ≤ 31 → Z.land (to_uint16 v) 0x1F = v.
Proof.
  intros Hv. unfold to_uint16. rewrite (Z.mod_small v) by lia.
  change 0x1F with (Z.ones 5). rewrite Z.land_ones by done.
  apply Z.mod_small. change (2 ^ 5) with 32. lia.
Qed.

(** The colour of a column for the scanner width the program uses. *)
Lemma scanner_color_width20 (pos x : Z) :
  0 ≤ x < WIDTH → -1000 ≤ pos ≤ 1000 →
  scanner_color pos 20 x
  = Ok (if decide (20 ≤ Z.abs (x - pos)) then COL_BLACK
        else gradient (Z.abs (x - pos))).
Proof.
  unfold WIDTH. intros Hx Hpos.
  unfold scanner_color, CInt.sub, CInt.abs, CInt.mul, CInt.div.
  rewrite (check_ok (x - pos)) by (unfold INT_MIN, INT_MAX; lia).
  rewrite bind_Ok.
  rewrite (check_ok (Z.abs (x - pos))) by (unfold INT_MIN, INT_MAX; lia).
  rewrite bind_Ok.
  set (dist := Z.abs (x - pos)).
  assert (Hd : 0 ≤ dist ≤ 1200) by (unfold dist; lia).
  destruct (dist <? 20) eqn:Hlt.
  - apply Z.ltb_lt in Hlt. rewrite decide_False by lia.
    rewrite (check_ok (dist * 31)) by (unfold INT_MIN, INT_MAX; lia).
    rewrite bind_Ok. change (20 =? 0) with false. cbv iota.
    rewrite Z.quot_div_nonneg by lia.
    assert (0 ≤ dist * 31 / 20 ≤ 31) by (Z.div_mod_to_equations; lia).
    rewrite (check_ok (dist * 31 / 20)) by (unfold INT_MIN, INT_MAX; lia).
    rewrite bind_Ok.
    rewrite (check_ok (31 - dist * 31 / 20)) by (unfold INT_MIN, INT_MAX; lia).
    rewrite bind_Ok. f_equal.
    pose proof (gradient_range dist ltac:(lia)) as Hg.
    replace (if 31 - dist * 31 / 20 <? 8 then 8 else 31 - dist * 31 / 20)
      with (gradient dist).
    + apply low5_small. lia.
    + unfold gradient. destruct (Z.ltb_spec (31 - dist * 31 / 20) 8); lia.
  - apply Z.ltb_ge in Hlt. by rewrite decide_True by lia.
Qed.

(** With a width that is zero or negative the test [dist < scanner_width]
    never holds: the column is black and nothing is divided. *)
Lemma scanner_color_dark (pos sw x : Z) :
  0 ≤ x < WIDTH → -1000 ≤ pos ≤ 1000 → sw ≤ 0 →
  scanner_color pos sw x = Ok COL_BLACK.
Proof.
  unfold WIDTH. intros Hx Hpos Hsw.
  unfold scanner_color, CInt.sub, CInt.abs.
  rewrite (check_ok (x - pos)) by (unfold INT_MIN, INT_MAX; lia).
  rewrite bind_Ok.
  rewrite (check_ok (Z.abs (x - pos))) by (unfold INT_MIN, INT_MAX; lia).
  rewrite bind_Ok.
  destruct (Z.ltb_spec (Z.abs (x - pos)) sw); [lia | done].
Qed.

(** The division of [scanner_color] is guarded: it is reached only with
    [0 <= dist < scanner_width], hence never with a zero divisor. *)
Lemma scanner_color_div_guarded (pos sw x : Z) :
  is_div_by_zero (scanner_color pos sw x) = false.
Proof.
  unfold scanner_color, CInt.sub, CInt.abs, CInt.mul, CInt.div, check.
  destruct (in_int (x - pos)); [rewrite bind_Ok | done].
  destruct (in_int (Z.abs (x - pos))); [rewrite bind_Ok | done].
  destruct (Z.ltb_spec (Z.abs (x - pos)) sw) as [Hlt|Hge]; [|done].
  destruct (in_int (Z.abs (x - pos) * 31)); [rewrite bind_Ok | done].
  destruct (Z.eqb_spec sw 0) as [->|Hnz]; [lia|].
  destruct (in_int (Z.quot _ _)); [rewrite bind_Ok | done].
  by destruct (in_int (31 - _)).
Qed.

Lemma length_fill_column (x c : Z) (fb : list Z) :
  length (fill_column (HEIGHT - 4) x c fb) = length fb.
Proof.
  unfold fill_column.
  change (seqZ (HEIGHT - 4) (HEIGHT - (HEIGHT - 4))) with [124; 125; 126; 127].
  cbn [foldl]. by rewrite !length_insert.
Qed.

(** The inner loop writes the four band pixels of column [x] and no
    other pixel. *)
Lemma fill_column_lookup (x c : Z) (fb : list Z) (x' y' : Z) :
  0 ≤ x < WIDTH → 0 ≤ x' < WIDTH → 0 ≤ y' < HEIGHT → length fb = NPIX →
  fill_column (HEIGHT - 4) x c fb !! pixel_index x' y'
  = if decide (x' = x ∧ HEIGHT - 4 ≤ y') then Some c
    else fb !! pixel_index x' y'.
Proof.
  intros Hx Hx' Hy' Hlen. pose proof NPIX_Z as HN.
  unfold fill_column.
  change (seqZ (HEIGHT - 4) (HEIGHT - (HEIGHT - 4))) with [124; 125; 126; 127].
  cbn [foldl]. unfold pixel_index, WIDTH, HEIGHT in *.
  rewrite !list_lookup_insert, !length_insert, Hlen.
  repeat case_decide; try reflexivity; exfalso; lia.
Qed.

Lemma scan_columns_ok (pos sw : Z) (xs : list Z) (fb : list Z) :
  (∀ x, x ∈ xs → ∃ c, scanner_color pos sw x = Ok c) →
  ∃ fb', scan_columns pos sw xs fb = Ok fb'.
Proof.
  revert fb. induction xs as [|x xs IH]; intros fb Hcol; [by eexists|].
  destruct (Hcol x) as [c Hc]; [by left|].
  cbn [scan_columns]. rewrite Hc, bind_Ok.
  apply IH. intros x' Hx'. apply Hcol. by right.
Qed.

Lemma scan_columns_div_guarded (pos sw : Z) (xs : list Z) (fb : list Z) :
  is_div_by_zero (scan_columns pos sw xs fb) = false.
Proof.
  revert fb. induction xs as [|x xs IH]; intros fb; [done|].
  cbn [scan_columns].
  pose proof (scanner_color_div_guarded pos sw x) as Hx.
  destruct (scanner_color pos sw x) as [c|u]; [by rewrite bind_Ok|].
  exact Hx.
Qed.

(** The outer loop: the band pixels of the columns visited hold the
    colour of their column, every other pixel is as it was. *)
Lemma scan_columns_lookup (pos sw : Z) (col : Z → Z) (xs : list Z) (fb : list Z) :
  (∀ x, x ∈ xs → 0 ≤ x < WIDTH ∧ scanner_color pos sw x = Ok (col x)) →
  length fb = NPIX →
  ∃ fb', scan_columns pos sw xs fb = Ok fb' ∧ length fb' = NPIX ∧
    ∀ x' y', 0 ≤ x' < WIDTH → 0 ≤ y' < HEIGHT →
      fb' !! pixel_index x' y'
      = if decide (x' ∈ xs ∧ HEIGHT - 4 ≤ y') then Some (col x')
        else fb !! pixel_index x' y'.
Proof.
  revert fb. induction xs as [|x xs IH]; intros fb Hcol Hlen.
  - exists fb. split; [done|]. split; [done|]. intros x' y' _ _.
    rewrite decide_False; [done|]. intros [Hin _]. by apply elem_of_nil in Hin.
  - destruct (Hcol x) as [Hx Hc]; [by left|].
    cbn [scan_columns]. rewrite Hc, bind_Ok.
    destruct (IH (fill_column (HEIGHT - 4) x (col x) fb)) as (fb' & Hrun & Hlen' & Hlk).
    { intros x' Hx'. apply Hcol. by right. }
    { by rewrite length_fill_column. }
    exists fb'. split; [done|]. split; [done|].
    intros x' y' Hx' Hy'. rewrite (Hlk x' y' Hx' Hy').
    rewrite (fill_column_lookup x (col x) fb x' y' Hx Hx' Hy' Hlen).
    repeat case_decide; try reflexivity;
      rewrite ?elem_of_cons in *; try (exfalso; tauto).
    by destruct_and!; subst.
Qed.

Lemma memcpy_frame (fb welcome_image : list Z) :
  length welcome_image = NPIX → length fb = NPIX →
  memcpy fb welcome_image NPIX = welcome_image.
Proof.
  intros Hw Hf. unfold memcpy.
  rewrite take_ge, drop_ge by lia. apply app_nil_r.
Qed.

Lemma elem_of_columns (x : Z) : x ∈ seqZ 0 WIDTH ↔ 0 ≤ x < WIDTH.
Proof. rewrite elem_of_seqZ. unfold WIDTH. lia. Qed.

(** C1. With the bar centre in [10, 118] and the width 20 the program
    uses, [draw_scanner] succeeds, and the frame it leaves in the frame
    buffer and flushes has rows 0..123 equal to the background and, in
    rows 124..127 at column [x], black when [|x - pos| >= 20] and
    otherwise the red intensity [max 8 (31 - |x - pos| * 31 / 20)], a
    value of 8..31 and so confined to the low five bits. *)
Theorem draw_scanner_frame (welcome_image : list Z) (g : globals) (pos : Z) :
  length welcome_image = NPIX → length (framebuf g) = NPIX → 10 ≤ pos ≤ 118 →
  ∃ frame,
    draw_scanner welcome_image g pos 20
    = Ok (set_framebuf frame g, ssd1351_flush (set_framebuf frame g)) ∧
    length frame = NPIX ∧
    ∀ x y, 0 ≤ x < WIDTH → 0 ≤ y < HEIGHT →
      frame !! pixel_index x y
      = (if decide (y < 124) then welcome_image !! pixel_index x y
         else if decide (20 ≤ Z.abs (x - pos)) then Some COL_BLACK
         else Some (Z.max 8 (31 - Z.abs (x - pos) * 31 / 20)))
      ∧ 8 ≤ Z.max 8 (31 - Z.abs (x - pos) * 31 / 20) < 32.
Proof.
  intros Hw Hf Hpos. unfold draw_scanner, compose.
  rewrite memcpy_frame by done.
  destruct (scan_columns_lookup pos 20
              (fun x => if decide (20 ≤ Z.abs (x - pos)) then COL_BLACK
                        else gradient (Z.abs (x - pos)))
              (seqZ 0 WIDTH) welcome_image) as (frame & Hrun & Hlen & Hlk).
  { intros x Hx%elem_of_columns. split; [done|].
    apply scanner_color_width20; [done | lia]. }
  { done. }
  exists frame. rewrite Hrun, bind_Ok. split; [reflexivity|].
  split; [done|].
  intros x y Hx Hy. split; [|split].
  - rewrite (Hlk x y) by done. unfold HEIGHT, gradient.
    repeat case_decide; try reflexivity;
      exfalso; rewrite ?elem_of_columns in *; lia.
  - lia.
  - pose proof (gradient_range (Z.abs (x - pos)) ltac:(lia)) as Hg.
    unfold gradient in Hg. lia.
Qed.

(** The bar at the panel centre over a uniform background. *)
Lemma draw_scanner_frame_centre :
  ∃ frame,
    draw_scanner (replicate NPIX 0x1234) initial_globals 64 20
    = Ok (set_framebuf frame initial_globals,
          ssd1351_flush (set_framebuf frame initial_globals)) ∧
    length frame = NPIX ∧
    ∀ x y, 0 ≤ x < WIDTH → 0 ≤ y < HEIGHT →
      frame !! pixel_index x y
      = (if decide (y < 124) then replicate NPIX 0x1234 !! pixel_index x y
         else if decide (20 ≤ Z.abs (x - 64)) then Some COL_BLACK
         else Some (Z.max 8 (31 - Z.abs (x - 64) * 31 / 20)))
      ∧ 8 ≤ Z.max 8 (31 - Z.abs (x - 64) * 31 / 20) < 32.
Proof.
  apply (draw_scanner_frame (replicate NPIX 0x1234) initial_globals 64).
  - apply length_replicate.
  - apply length_replicate.
  - lia.
Defined.

(** ** The animation state *)

Lemma anim_state_S (n : nat) :
  anim_state (S n) = advance scanner_width (anim_state n).
Proof. reflexivity. Qed.

Lemma advance_20 (p d : Z) :
  advance scanner_width (p, d)
  = if 118 <=? p + d * 4 then (118, -1)
    else if p + d * 4 <=? 10 then (10, 1)
    else (p + d * 4, d).
Proof. reflexivity. Qed.

Lemma advance_triangle (n : nat) :
  advance scanner_width (triangle n) = triangle (S n).
Proof.
  unfold triangle. rewrite Nat2Z.inj_succ.
  set (k := Z.of_nat n mod 54). set (k' := Z.succ (Z.of_nat n) mod 54).
  assert (Hk : 0 ≤ k < 54) by (apply Z.mod_pos_bound; lia).
  assert (Hk' : k < 53 ∧ k' = k + 1 ∨ k = 53 ∧ k' = 0).
  { unfold k, k'. Z.div_mod_to_equations. lia. }
  destruct (k <? 27) eqn:Hlt; rewrite advance_20;
    split_ifs; try (exfalso; lia); f_equal; lia.
Qed.

Lemma anim_state_triangle (n : nat) : anim_state (S n) = triangle n.
Proof.
  induction n as [|n IH]; [reflexivity|].
  by rewrite anim_state_S, IH, advance_triangle.
Qed.

Lemma anim_inv_advance (n : nat) (st : Z * Z) :
  anim_inv n st → anim_inv (S n) (advance scanner_width st).
Proof.
  destruct st as [p d]. unfold anim_inv. cbn [fst snd]. intros Hinv.
  rewrite advance_20. split_ifs; cbn [fst snd]; lia.
Qed.

Lemma anim_state_inv (n : nat) : anim_inv n (anim_state n).
Proof.
  induction n as [|n IH].
  - unfold anim_inv. cbn. lia.
  - rewrite anim_state_S. by apply anim_inv_advance.
Qed.

(** ** Bus traffic opens, closes and prints nothing *)

Lemma closes_app (a b : list event) : closes (a ++ b) = closes a ++ closes b.
Proof.
  induction a as [|ev a IH]; [done|]. destruct ev; cbn [app closes]; by rewrite ?IH.
Qed.

Lemma stderr_lines_app (a b : list event) :
  stderr_lines (a ++ b) = stderr_lines a ++ stderr_lines b.
Proof.
  induction a as [|ev a IH]; [done|].
  destruct ev; cbn [app stderr_lines]; by rewrite ?IH.
Qed.

Lemma opened_app (a b : list event) : opened (a ++ b) = opened a ++ opened b.
Proof.
  induction a as [|ev a IH]; [done|].
  destruct ev as [| |? ? ?|? ? [?|]| | | | | |]; cbn [app opened];
    try case_match; by rewrite ?IH.
Qed.

Lemma bus_quiet (tr : list event) :
  Forall bus_event tr → closes tr = [] ∧ stderr_lines tr = [] ∧ opened tr = [].
Proof.
  induction 1 as [|ev tr Hev _ IH]; [done|].
  destruct ev; try done; exact IH.
Qed.

Lemma spi_write_bus g data : Forall bus_event (spi_write g data).
Proof.
  rewrite spi_write_events. apply Forall_map, Forall_forall. by intros.
Qed.

Lemma ssd1351_cmd_bus g c : Forall bus_event (ssd1351_cmd g c).
Proof. apply Forall_cons; split; [done | apply spi_write_bus]. Qed.

Lemma ssd1351_data_bus g data : Forall bus_event (ssd1351_data g data).
Proof. apply Forall_cons; split; [done | apply spi_write_bus]. Qed.

Lemma ssd1351_flush_bus g : Forall bus_event (ssd1351_flush g).
Proof.
  unfold ssd1351_flush. rewrite !Forall_app.
  repeat split; first [apply ssd1351_cmd_bus | apply ssd1351_data_bus].
Qed.

Lemma ssd1351_init_bus g : Forall bus_event (ssd1351_init g).
Proof.
  unfold ssd1351_init. rewrite !Forall_app.
  repeat split;
    first [apply ssd1351_cmd_bus | apply ssd1351_data_bus
          | by apply Forall_cons].
Qed.

Lemma hw_cleanup_quiet g :
  stderr_lines (hw_cleanup g) = [] ∧ opened (hw_cleanup g) = [].
Proof. unfold hw_cleanup. by repeat case_match. Qed.

(** ** The loop never leaves defined arithmetic *)

Lemma anim_ok_advance (st : Z * Z) :
  anim_ok st → anim_ok (advance scanner_width st).
Proof.
  destruct st as [p d]. unfold anim_ok. cbn [fst snd]. intros Hst.
  rewrite advance_20. split_ifs; cbn [fst snd]; lia.
Qed.

Lemma compose_ok (welcome_image fb : list Z) (pos : Z) :
  -1000 ≤ pos ≤ 1000 → ∃ frame, compose welcome_image fb pos 20 = Ok frame.
Proof.
  intros Hpos. apply scan_columns_ok. intros x Hx%elem_of_columns.
  eexists. by apply scanner_color_width20.
Qed.

Lemma draw_scanner_run (welcome_image : list Z) (g : globals) (pos : Z) :
  -1000 ≤ pos ≤ 1000 →
  ∃ frame, compose welcome_image (framebuf g) pos 20 = Ok frame ∧
    draw_scanner welcome_image g pos scanner_width
    = Ok (set_framebuf frame g, ssd1351_flush (set_framebuf frame g)).
Proof.
  intros Hpos.
  destruct (compose_ok welcome_image (framebuf g) pos Hpos) as [frame Hf].
  exists frame. split; [done|].
  unfold draw_scanner, scanner_width. by rewrite Hf.
Qed.

Lemma main_loop_run (welcome_image : list Z) (n : nat) (g : globals) (st : Z * Z) :
  anim_ok st →
  ∃ g' ev, main_loop welcome_image n g st = Ok (g', ev) ∧
    spi_fd g' = spi_fd g ∧ gpio_fd g' = gpio_fd g ∧
    dc_req g' = dc_req g ∧ rst_req g' = rst_req g ∧
    Forall bus_event ev.
Proof.
  revert g st. induction n as [|n IH]; intros g st Hst.
  - by exists g, [].
  - destruct (draw_scanner_run welcome_image g (fst st)) as (frame & _ & Hdraw).
    { destruct Hst. lia. }
    destruct (IH (set_framebuf frame g) (advance scanner_width st))
      as (g' & ev & Hrun & ? & ? & ? & ? & Hbus).
    { by apply anim_ok_advance. }
    exists g', (ssd1351_flush (set_framebuf frame g) ++ msleep 30 ++ ev).
    cbn [main_loop]. rewrite Hdraw, bind_Ok, Hrun, bind_Ok.
    repeat split; [done..|].
    apply Forall_app; split; [apply ssd1351_flush_bus|].
    by apply Forall_cons.
Qed.

(** ** Start-up and shutdown *)

Lemma opened_init g : opened (ssd1351_init g) = [].
Proof. apply bus_quiet, ssd1351_init_bus. Qed.

Lemma closes_init g : closes (ssd1351_init g) = [].
Proof. apply bus_quiet, ssd1351_init_bus. Qed.

Lemma stderr_lines_init g : stderr_lines (ssd1351_init g) = [].
Proof. apply bus_quiet, ssd1351_init_bus. Qed.

Ltac hw_init_case :=
  eexists _, _; split; [reflexivity|];
  cbn -[ssd1351_init Z.ltb Z.leb];
  rewrite ?closes_app, ?opened_app, ?stderr_lines_app,
          ?closes_init, ?opened_init, ?stderr_lines_init;
  cbn -[ssd1351_init Z.ltb Z.leb].

Lemma hw_init_outcome (e : env) :
  ∃ g ev, hw_init e initial_globals = ((if init_ok e then 0 else -1), g, ev) ∧
    closes ev = [] ∧
    (if init_ok e then stderr_lines ev = [] else True) ∧
    (lines_positive e → closes (hw_cleanup g) ≡ₚ opened ev) ∧
    (env_open_spi e < 0 →
       ev = [Open SPI_DEVICE (env_open_spi e); Perror "open spi"] ∧
       hw_cleanup g = []).
Proof.
  destruct e as [spi gpio dc rst].
  unfold hw_init, init_ok, lines_positive, hw_cleanup.
  cbn -[ssd1351_init Z.ltb Z.leb].
  destruct (Z.ltb_spec spi 0) as [Hs|Hs].
  { rewrite (proj2 (Z.leb_gt 0 spi)) by lia. hw_init_case.
    rewrite (proj2 (Z.leb_gt 0 spi)) by lia. done. }
  rewrite (proj2 (Z.leb_le 0 spi)) by lia.
  destruct (Z.ltb_spec gpio 0) as [Hg|Hg].
  { rewrite (proj2 (Z.leb_gt 0 gpio)) by lia. hw_init_case.
    rewrite (proj2 (Z.leb_gt 0 gpio)), (proj2 (Z.leb_le 0 spi)) by lia.
    repeat split; [done | lia | lia]. }
  rewrite (proj2 (Z.leb_le 0 gpio)) by lia.
  destruct dc as [d|]; cbn -[ssd1351_init Z.ltb Z.leb].
  2:{ change (-1 <? 0) with true. hw_init_case.
      rewrite (proj2 (Z.leb_le 0 gpio)), (proj2 (Z.leb_le 0 spi)) by lia.
      repeat split; [|lia|lia]. intros _. cbn. apply Permutation_swap. }
  change (0 <? 0) with false. cbv iota.
  destruct rst as [r|]; cbn -[ssd1351_init Z.ltb Z.leb].
  2:{ change (-1 <? 0) with true. hw_init_case.
      rewrite (proj2 (Z.leb_le 0 gpio)), (proj2 (Z.leb_le 0 spi)) by lia.
      repeat split; [|lia|lia]. intros [Hd _].
      rewrite (proj2 (Z.ltb_lt 0 d)) by (by apply Hd). cbn.
      solve_Permutation. }
  change (0 <? 0) with false. hw_init_case.
  rewrite (proj2 (Z.leb_le 0 gpio)), (proj2 (Z.leb_le 0 spi)) by lia.
  repeat split; [|lia|lia]. intros [Hd Hr].
  rewrite (proj2 (Z.ltb_lt 0 d)) by (by apply Hd).
  rewrite (proj2 (Z.ltb_lt 0 r)) by (by apply Hr). cbn.
  solve_Permutation.
Qed.

Lemma main_unfold (welcome_image : list Z) (e : env) (n : nat) :
  ∃ g ev1, hw_init e initial_globals = ((if init_ok e then 0 else -1), g, ev1) ∧
    closes ev1 = [] ∧
    (if init_ok e then stderr_lines ev1 = [] else True) ∧
    (lines_positive e → closes (hw_cleanup g) ≡ₚ opened ev1) ∧
    (env_open_spi e < 0 →
       ev1 = [Open SPI_DEVICE (env_open_spi e); Perror "open spi"] ∧
       hw_cleanup g = []) ∧
    ∃ loop_ev, Forall bus_event loop_ev ∧
      main welcome_image e n
      = Ok (if init_ok e
            then (0, [Signal_install "SIGTERM"; Signal_install "SIGINT"]
                     ++ ev1 ++ ssd1351_cmd g 0xAF ++ loop_ev ++ hw_cleanup g)
            else (1, [Signal_install "SIGTERM"; Signal_install "SIGINT"]
                     ++ ev1 ++ [Stderr init_failed_msg] ++ hw_cleanup g)).
Proof.
  destruct (hw_init_outcome e) as (g & ev1 & Hinit & Hcl & Herr & Hperm & Hspi).
  exists g, ev1. do 5 (split; [done|]).
  unfold main. rewrite Hinit.
  destruct (init_ok e).
  - destruct (main_loop_run welcome_image n g (0, 1))
      as (g' & ev & Hrun & Hs & Hg & Hd & Hr & Hbus).
    { unfold anim_ok. cbn. lia. }
    exists ev. split; [done|].
    change (0 <? 0) with false. cbv iota. rewrite Hrun, bind_Ok.
    unfold hw_cleanup. by rewrite Hs, Hg, Hd, Hr.
  - exists []. split; [constructor|]. reflexivity.
Qed.

(** C6. The exit status is 0 when initialisation succeeded and the loop
    was stopped by a signal, and 1 when initialisation failed, in which
    case the last thing written to standard error is the failure
    message.  When the SPI device cannot be opened the whole run is: the
    two handlers installed, the failed [open], the [perror] line, the
    failure message; no descriptor was handed out and cleanup closes
    none. *)
Theorem main_exit_status (welcome_image : list Z) (e : env) (n : nat) :
  ∃ tr, main welcome_image e n = Ok ((if init_ok e then 0 else 1), tr) ∧
    fst (fst (hw_init e initial_globals)) = (if init_ok e then 0 else -1) ∧
    (if init_ok e then stderr_lines tr = []
     else last (stderr_lines tr) = Some init_failed_msg) ∧
    (env_open_spi e < 0 →
       init_ok e = false ∧
       tr = [ Signal_install "SIGTERM"; Signal_install "SIGINT";
              Open SPI_DEVICE (env_open_spi e); Perror "open spi";
              Stderr init_failed_msg ] ∧
       closes tr = [] ∧ opened tr = []).
Proof.
  destruct (main_unfold welcome_image e n)
    as (g & ev1 & Hinit & Hcl & Herr & _ & Hspi & loop_ev & Hbus & Hmain).
  rewrite Hmain, Hinit. cbn [fst].
  destruct (init_ok e) eqn:Hok.
  - eexists. split; [reflexivity|]. split; [reflexivity|]. split.
    + rewrite !stderr_lines_app, Herr.
      destruct (bus_quiet _ (ssd1351_cmd_bus g 0xAF)) as (_ & -> & _).
      destruct (bus_quiet _ Hbus) as (_ & -> & _).
      by destruct (hw_cleanup_quiet g) as [-> _].
    + intros Hlt. exfalso. unfold init_ok in Hok.
      rewrite (proj2 (Z.leb_gt 0 (env_open_spi e))) in Hok by lia. done.
  - eexists. split; [reflexivity|]. split; [reflexivity|]. split.
    + rewrite !stderr_lines_app.
      destruct (hw_cleanup_quiet g) as [-> _]. rewrite app_nil_r.
      cbn [stderr_lines app]. by rewrite last_snoc.
    + intros Hlt. destruct (Hspi Hlt) as [-> ->].
      split; [done|]. split; [reflexivity|]. cbn.
      by rewrite (proj2 (Z.leb_gt 0 (env_open_spi e))) by lia.
Qed.

(** The SPI device is absent: [open] answers -1. *)
Lemma main_exit_status_no_spi :
  ∃ tr,
    main (replicate NPIX 0x1234)
         {| env_open_spi := -1; env_open_gpio := 4;
            env_line_dc := Some 5; env_line_rst := Some 6 |} 3
    = Ok (1, tr) ∧
    tr = [ Signal_install "SIGTERM"; Signal_install "SIGINT";
           Open SPI_DEVICE (-1); Perror "open spi";
           Stderr init_failed_msg ] ∧
    closes tr = [] ∧ opened tr = [].
Proof.
  destruct (main_exit_status (replicate NPIX 0x1234)
              {| env_open_spi := -1; env_open_gpio := 4;
                 env_line_dc := Some 5; env_line_rst := Some 6 |} 3)
    as (tr & Hmain & _ & _ & Hspi).
  exists tr. split; [exact Hmain|].
  destruct Hspi as (_ & Htr & Hcl & Hop); [cbn; lia|].
  by repeat split.
Defined.

(** C8 (as the code has it). Over a whole run, whatever the kernel
    answered during start-up, the descriptors closed are exactly the
    descriptors handed out, each closed as often as it was handed out;
    all of them are closed by the one call of [hw_cleanup] that ends the
    run.  In any state [hw_cleanup] closes the handles whose descriptor
    is valid and skips the others; with nothing acquired it closes
    nothing. *)
Theorem hw_cleanup_closes_acquired (welcome_image : list Z) (e : env) (n : nat) :
  lines_positive e →
  hw_cleanup initial_globals = [] ∧
  (∀ g', closes (hw_cleanup g')
         = (if 0 <? dc_req g' then [dc_req g'] else [])
           ++ (if 0 <? rst_req g' then [rst_req g'] else [])
           ++ (if 0 <=? gpio_fd g' then [gpio_fd g'] else [])
           ++ (if 0 <=? spi_fd g' then [spi_fd g'] else [])) ∧
  ∃ st g tr0,
    main welcome_image e n = Ok (st, tr0 ++ hw_cleanup g) ∧
    closes tr0 = [] ∧
    opened (tr0 ++ hw_cleanup g) = opened tr0 ∧
    closes (tr0 ++ hw_cleanup g) = closes (hw_cleanup g) ∧
    closes (hw_cleanup g) ≡ₚ opened tr0.
Proof.
  intros Hpos. split; [reflexivity|]. split.
  { intros g'. unfold hw_cleanup. rewrite !closes_app.
    by repeat case_match. }
  destruct (main_unfold welcome_image e n)
    as (g & ev1 & Hinit & Hcl & Herr & Hperm & Hspi & loop_ev & Hbus & Hmain).
  specialize (Hperm Hpos).
  destruct (bus_quiet _ Hbus) as (Hc1 & _ & Ho1).
  destruct (bus_quiet _ (ssd1351_cmd_bus g 0xAF)) as (Hc2 & _ & Ho2).
  destruct (hw_cleanup_quiet g) as [_ Ho3].
  destruct (init_ok e).
  - exists 0, g,
      ([Signal_install "SIGTERM"; Signal_install "SIGINT"]
         ++ ev1 ++ ssd1351_cmd g 0xAF ++ loop_ev).
    rewrite Hmain. split; [by rewrite <- !app_assoc|].
    rewrite !closes_app, !opened_app, Hcl, Hc1, Hc2, Ho1, Ho2, Ho3.
    cbn [closes opened app]. rewrite !app_nil_r. by repeat split.
  - exists 1, g,
      ([Signal_install "SIGTERM"; Signal_install "SIGINT"]
         ++ ev1 ++ [Stderr init_failed_msg]).
    rewrite Hmain. split; [by rewrite <- !app_assoc|].
    rewrite !closes_app, !opened_app, Hcl, Ho3.
    cbn [closes opened app]. rewrite !app_nil_r. by repeat split.
Qed.

(** All four handles granted: descriptors 3 to 6. *)
Lemma hw_cleanup_closes_acquired_all :
  ∃ st g tr0,
    main (replicate NPIX 0x1234)
         {| env_open_spi := 3; env_open_gpio := 4;
            env_line_dc := Some 5; env_line_rst := Some 6 |} 2
    = Ok (st, tr0 ++ hw_cleanup g) ∧
    closes tr0 = [] ∧
    opened (tr0 ++ hw_cleanup g) = opened tr0 ∧
    closes (tr0 ++ hw_cleanup g) = closes (hw_cleanup g) ∧
    closes (hw_cleanup g) ≡ₚ opened tr0.
Proof.
  apply (hw_cleanup_closes_acquired (replicate NPIX 0x1234)
           {| env_open_spi := 3; env_open_gpio := 4;
              env_line_dc := Some 5; env_line_rst := Some 6 |} 2).
  split; intros fd [= <-]; lia.
Defined.

(** C8, idempotence: [hw_cleanup] assigns to none of the descriptors, so
    calling it again on the state a complete cleanup leaves behind closes
    the same four descriptors a second time. *)
Lemma hw_cleanup_twice_closes_again :
  closes (hw_cleanup
            (snd (fst (hw_init {| env_open_spi := 3; env_open_gpio := 4;
                                  env_line_dc := Some 5; env_line_rst := Some 6 |}
                               initial_globals))))
  = [5; 6; 4; 3] ∧
  closes (hw_cleanup
            (snd (fst (hw_init {| env_open_spi := 3; env_open_gpio := 4;
                                  env_line_dc := Some 5; env_line_rst := Some 6 |}
                               initial_globals)))
          ++ hw_cleanup
               (snd (fst (hw_init {| env_open_spi := 3; env_open_gpio := 4;
                                     env_line_dc := Some 5; env_line_rst := Some 6 |}
                                  initial_globals))))
  = [5; 6; 4; 3; 5; 6; 4; 3].
Proof. split; reflexivity. Qed.

(** ** The division in the gradient *)

Lemma draw_scanner_div_guarded (welcome_image : list Z) (g : globals) (pos sw : Z) :
  is_div_by_zero (draw_scanner welcome_image g pos sw) = false.
Proof.
  unfold draw_scanner, compose.
  pose proof (scan_columns_div_guarded pos sw (seqZ 0 WIDTH)
                (memcpy (framebuf g) welcome_image NPIX)) as Hs.
  by destruct (scan_columns _ _ _ _) as [frame|u].
Qed.

Lemma draw_scanner_dark (welcome_image : list Z) (g : globals) (pos sw : Z) :
  sw ≤ 0 → -1000 ≤ pos ≤ 1000 →
  length welcome_image = NPIX → length (framebuf g) = NPIX →
  ∃ frame,
    draw_scanner welcome_image g pos sw
    = Ok (set_framebuf frame g, ssd1351_flush (set_framebuf frame g)) ∧
    ∀ x y, 0 ≤ x < WIDTH → 0 ≤ y < HEIGHT →
      frame !! pixel_index x y
      = if decide (HEIGHT - 4 ≤ y) then Some COL_BLACK
        else welcome_image !! pixel_index x y.
Proof.
  intros Hsw Hpos Hw Hf. unfold draw_scanner, compose.
  rewrite memcpy_frame by done.
  destruct (scan_columns_lookup pos sw (fun _ => COL_BLACK)
              (seqZ 0 WIDTH) welcome_image) as (frame & Hrun & Hlen & Hlk).
  { intros x Hx%elem_of_columns. split; [done|].
    by apply scanner_color_dark. }
  { done. }
  exists frame. rewrite Hrun, bind_Ok. split; [done|].
  intros x y Hx Hy. rewrite (Hlk x y Hx Hy).
  repeat case_decide; try reflexivity;
    exfalso; rewrite ?elem_of_columns in *; tauto.
Qed.

Lemma main_defined (welcome_image : list Z) (e : env) (n : nat) :
  ∃ r, main welcome_image e n = Ok r.
Proof.
  destruct (main_unfold welcome_image e n)
    as (g & ev1 & _ & _ & _ & _ & _ & loop_ev & _ & Hmain).
  eexists. exact Hmain.
Qed.

(** C10 (as the code has it). The division by [scanner_width] sits
    inside the test [dist < scanner_width] with [dist >= 0], so it is
    reached only with a positive divisor: for no position and no width,
    zero and negative widths included, does [draw_scanner] divide by
    zero.  With a width of zero or less it is defined all the same and
    leaves the band black.  The program itself passes the width 20 and
    never leaves defined arithmetic. *)
Theorem draw_scanner_division_guarded
  (welcome_image : list Z) (g : globals) (pos sw : Z) :
  is_div_by_zero (draw_scanner welcome_image g pos sw) = false ∧
  (∀ x, is_div_by_zero (scanner_color pos sw x) = false) ∧
  (sw ≤ 0 → -1000 ≤ pos ≤ 1000 →
   length welcome_image = NPIX → length (framebuf g) = NPIX →
   ∃ frame,
     draw_scanner welcome_image g pos sw
     = Ok (set_framebuf frame g, ssd1351_flush (set_framebuf frame g)) ∧
     ∀ x y, 0 ≤ x < WIDTH → 0 ≤ y < HEIGHT →
       frame !! pixel_index x y
       = if decide (HEIGHT - 4 ≤ y) then Some COL_BLACK
         else welcome_image !! pixel_index x y) ∧
  scanner_width = 20 ∧
  (∀ e n, ∃ r, main welcome_image e n = Ok r).
Proof.
  split; [apply draw_scanner_div_guarded|].
  split; [intros x; apply scanner_color_div_guarded|].
  split; [apply draw_scanner_dark|].
  split; [reflexivity|].
  intros e n. apply main_defined.
Qed.

(** A scanner of width zero over the initial frame buffer. *)
Lemma draw_scanner_division_guarded_zero :
  is_div_by_zero
    (draw_scanner (replicate NPIX 0x1234) initial_globals 64 0) = false ∧
  ∃ frame,
    draw_scanner (replicate NPIX 0x1234) initial_globals 64 0
    = Ok (set_framebuf frame initial_globals,
          ssd1351_flush (set_framebuf frame initial_globals)) ∧
    ∀ x y, 0 ≤ x < WIDTH → 0 ≤ y < HEIGHT →
      frame !! pixel_index x y
      = if decide (HEIGHT - 4 ≤ y) then Some COL_BLACK
        else replicate NPIX 0x1234 !! pixel_index x y.
Proof.
  destruct (draw_scanner_division_guarded
              (replicate NPIX 0x1234) initial_globals 64 0)
    as (Hdiv & _ & Hdark & _).
  split; [exact Hdiv|].
  apply Hdark; [lia | lia | apply length_replicate | apply length_replicate].
Defined.

(** C10, the precondition: composition does not need a positive width.
    With [scanner_width = 0] it is defined. *)
Lemma draw_scanner_zero_width_defined :
  (∃ r, draw_scanner (replicate NPIX 0x1234) initial_globals 64 0 = Ok r) ∧
  ¬ (0 < 0) ∧
  ¬ (∀ (welcome_image : list Z) (g : globals) (pos sw : Z),
       (∃ r, draw_scanner welcome_image g pos sw = Ok r) → 0 < sw).
Proof.
  assert (Hdef : ∃ r, draw_scanner (replicate NPIX 0x1234) initial_globals 64 0
                      = Ok r).
  { destruct (draw_scanner_dark (replicate NPIX 0x1234) initial_globals 64 0)
      as (frame & Hrun & _); [lia | lia | apply length_replicate..|].
    eexists. exact Hrun. }
  split; [exact Hdef|]. split; [lia|].
  intros Hpre. specialize (Hpre _ _ _ _ Hdef). lia.
Qed.

(** ** The frames of a run *)

(** The frame drawn in iteration [n] (counting from zero) is composed at
    the position [n] updates after the start. *)
Lemma main_loop_last (welcome_image : list Z) (n : nat) (g : globals) (st : Z * Z) :
  anim_ok st →
  ∃ g1 ev1 frame,
    main_loop welcome_image n g st = Ok (g1, ev1) ∧
    compose welcome_image (framebuf g1)
            (fst (Nat.iter n (advance scanner_width) st)) 20 = Ok frame ∧
    main_loop welcome_image (S n) g st
    = Ok (set_framebuf frame g1,
          ev1 ++ ssd1351_flush (set_framebuf frame g1) ++ msleep 30).
Proof.
  revert g st. induction n as [|n IH]; intros g st Hst.
  - destruct (draw_scanner_run welcome_image g (fst st)) as (frame & Hc & Hdraw).
    { destruct Hst. lia. }
    exists g, [], frame. split; [done|]. split; [done|].
    cbn [main_loop]. rewrite Hdraw, !bind_Ok, app_nil_r. reflexivity.
  - destruct (draw_scanner_run welcome_image g (fst st)) as (fa & _ & Hdraw).
    { destruct Hst. lia. }
    destruct (IH (set_framebuf fa g) (advance scanner_width st))
      as (g1 & ev1 & frame & Hn & Hc & HS).
    { by apply anim_ok_advance. }
    exists g1, (ssd1351_flush (set_framebuf fa g) ++ msleep 30 ++ ev1), frame.
    split; [|split].
    + cbn [main_loop]. rewrite Hdraw, bind_Ok, Hn, bind_Ok. reflexivity.
    + by rewrite Nat.iter_succ_r.
    + change (main_loop welcome_image (S (S n)) g st)
        with ('(ga, eva) ← draw_scanner welcome_image g (fst st) scanner_width;
              '(g2, ev2) ← main_loop welcome_image (S n) ga
                                     (advance scanner_width st);
              Ok (g2, eva ++ msleep 30 ++ ev2)).
      rewrite Hdraw, bind_Ok, HS, bind_Ok, <- !app_assoc. reflexivity.
Qed.

(** The frame drawn in iteration [n] of [main] is composed at the
    position of [anim_state n]. *)
Lemma main_loop_draws (welcome_image : list Z) (n : nat) (g : globals) :
  ∃ g1 ev1 frame,
    main_loop welcome_image n g (0, 1) = Ok (g1, ev1) ∧
    compose welcome_image (framebuf g1) (fst (anim_state n)) 20 = Ok frame ∧
    main_loop welcome_image (S n) g (0, 1)
    = Ok (set_framebuf frame g1,
          ev1 ++ ssd1351_flush (set_framebuf frame g1) ++ msleep 30).
Proof.
  apply (main_loop_last welcome_image n g (0, 1)).
  unfold anim_ok. cbn. lia.
Qed.

(** C4. The positions the loop draws (frame [n] is composed at the
    position of [anim_state n]) start at 0 and from then on run 27 steps
    of 4 up from 10 to 118 and 27 steps of 4 down again, for ever.
    While the direction is +1 each position is strictly above the one
    before, while it is -1 strictly below; the next position is the step
    of 4 clamped into [10, 118]; the direction becomes -1 exactly when
    118 is reached and +1 exactly when 10 is reached; no position is
    above 118 and, after the first, none is below 10. *)
Theorem anim_triangle_wave (welcome_image : list Z) (g : globals) (n : nat) :
  (∃ g1 ev1 frame,
     main_loop welcome_image n g (0, 1) = Ok (g1, ev1) ∧
     compose welcome_image (framebuf g1) (fst (anim_state n)) 20 = Ok frame ∧
     main_loop welcome_image (S n) g (0, 1)
     = Ok (set_framebuf frame g1,
           ev1 ++ ssd1351_flush (set_framebuf frame g1) ++ msleep 30)) ∧
  anim_state 0 = (0, 1) ∧
  anim_state (S n) = triangle n ∧
  fst (anim_state n) ≤ 118 ∧
  10 ≤ fst (anim_state (S n)) ≤ 118 ∧
  (if decide (snd (anim_state n) = 1)
   then fst (anim_state n) < fst (anim_state (S n))
   else fst (anim_state (S n)) < fst (anim_state n)) ∧
  fst (anim_state (S n))
  = Z.max 10 (Z.min 118 (fst (anim_state n) + snd (anim_state n) * 4)) ∧
  snd (anim_state (S n))
  = (if decide (fst (anim_state (S n)) = 118) then -1
     else if decide (fst (anim_state (S n)) = 10) then 1
     else snd (anim_state n)).
Proof.
  split; [apply main_loop_draws|].
  split; [reflexivity|]. split; [apply anim_state_triangle|].
  pose proof (anim_state_inv n) as Hn.
  pose proof (anim_state_inv (S n)) as HS.
  rewrite anim_state_S in *.
  destruct (anim_state n) as [p d]. unfold anim_inv in *.
  rewrite advance_20 in *. cbn [fst snd] in *.
  destruct (118 <=? p + d * 4) eqn:Hhi; [|destruct (p + d * 4 <=? 10) eqn:Hlo];
    rewrite ?Z.leb_le, ?Z.leb_gt in *; cbn [fst snd] in *;
    repeat split; repeat case_decide; lia.
Qed.

(** C7 (as the code has it). Frame [n] is composed at the position of
    [anim_state n].  The first frame is composed at position 0;
    at every later evaluation of the loop condition the position is in
    [10, 118].  The direction is always +1 or -1.  The state moves by
    one [advance] per iteration: of the steps of the main thread only
    the update step touches it, and the signal handler leaves it
    alone. *)
Theorem anim_state_bounds (welcome_image : list Z) (g : globals) (n : nat) :
  (∃ g1 ev1 frame,
     main_loop welcome_image n g (0, 1) = Ok (g1, ev1) ∧
     compose welcome_image (framebuf g1) (fst (anim_state n)) 20 = Ok frame ∧
     main_loop welcome_image (S n) g (0, 1)
     = Ok (set_framebuf frame g1,
           ev1 ++ ssd1351_flush (set_framebuf frame g1) ++ msleep 30)) ∧
  anim_state 0 = (0, 1) ∧
  10 ≤ fst (anim_state (S n)) ≤ 118 ∧
  0 ≤ fst (anim_state n) ≤ 118 ∧
  (snd (anim_state n) = 1 ∨ snd (anim_state n) = -1) ∧
  anim_state (S n) = advance scanner_width (anim_state n) ∧
  (∀ s, Loop.pos_dir (Loop.step s)
        = match Loop.at_pc s with
          | Loop.AtAdvance => advance scanner_width (Loop.pos_dir s)
          | _ => Loop.pos_dir s
          end) ∧
  (∀ s, Loop.pos_dir (Loop.signal_handler s) = Loop.pos_dir s).
Proof.
  pose proof (anim_state_inv n) as Hn.
  pose proof (anim_state_inv (S n)) as HS.
  unfold anim_inv in *.
  split; [apply main_loop_draws|].
  split; [reflexivity|]. split; [lia|]. split; [lia|]. split; [tauto|].
  split; [reflexivity|]. split; [|done].
  intros s. unfold Loop.step. by destruct (Loop.at_pc s).
Qed.

(** C7, the first frame: it is composed at position 0, below the lower
    bound 10. *)
Lemma first_frame_below_bound :
  fst (anim_state 0) = 0 ∧
  main_loop (replicate NPIX 0x1234) 1 initial_globals (0, 1)
  = ('(g1, ev1) ← draw_scanner (replicate NPIX 0x1234) initial_globals 0
                                scanner_width;
     Ok (g1, ev1 ++ msleep 30 ++ [])) ∧
  ¬ (∀ n, 10 ≤ fst (anim_state n) ≤ 118).
Proof.
  split; [reflexivity|]. split; [reflexivity|].
  intros Hall. specialize (Hall 0%nat). cbn in Hall. lia.
Qed.

(** ** Shutdown by signal *)

Lemma signal_handler_stopped (s : Loop.state) :
  Loop.running s = false → Loop.signal_handler s = s.
Proof. destruct s. cbn. by intros ->. Qed.

Lemma step_running (s : Loop.state) :
  Loop.running (Loop.step s) = Loop.running s.
Proof. unfold Loop.step. by destruct (Loop.at_pc s). Qed.

Lemma step_exited (s : Loop.state) :
  Loop.at_pc s = Loop.Exited → Loop.step s = s.
Proof. unfold Loop.step. by intros ->. Qed.

Lemma iter_exited (k : nat) (s : Loop.state) :
  Loop.at_pc s = Loop.Exited → Nat.iter k Loop.step s = s.
Proof.
  intros Hs. induction k as [|k IH]; [done|].
  rewrite Nat.iter_succ, IH. by apply step_exited.
Qed.

Lemma run_app (a b : list bool) (s : Loop.state) :
  Loop.run (a ++ b) s = Loop.run b (Loop.run a s).
Proof. revert s. induction a as [|sig a IH]; intros s; [done|]. apply IH. Qed.

(** Once the flag is clear, further signals change nothing. *)
Lemma run_stopped (sched : list bool) (s : Loop.state) :
  Loop.running s = false →
  Loop.run sched s = Nat.iter (length sched) Loop.step s.
Proof.
  revert s. induction sched as [|sig sched IH]; intros s Hs; [done|].
  cbn [Loop.run length]. rewrite Nat.iter_succ_r.
  replace (if sig then Loop.signal_handler s else s) with s
    by (destruct sig; [by rewrite signal_handler_stopped | done]).
  apply IH. by rewrite step_running.
Qed.

(** Without a signal, five steps of the main thread make one tick. *)
Lemma run_ticks (n : nat) :
  Loop.run (replicate (5 * n) false) Loop.initial
  = {| Loop.at_pc := Loop.AtCheck; Loop.running := true;
       Loop.pos_dir := anim_state n;
       Loop.composed := n; Loop.flushed := n; Loop.cleanups := 0 |}.
Proof.
  induction n as [|n IH]; [reflexivity|].
  replace (5 * S n)%nat with (5 * n + 5)%nat by lia.
  rewrite replicate_add, run_app, IH. reflexivity.
Qed.

(** C9. Once a signal has cleared the flag, wherever in the loop the
    main thread is, it reaches the exit within six of its steps, having
    composed at most one further frame and flushed at most one, and
    having called [hw_cleanup] once; when the flag is cleared during the
    sleep or just before the test, no further frame is drawn.  The flag
    is read by the test at the top of the loop only: at every other
    point a signal commutes with the step. *)
Theorem loop_exits_within_one_tick (s : Loop.state) (sched : list bool) :
  Loop.running s = false → Loop.in_loop (Loop.at_pc s) →
  (6 ≤ length sched)%nat →
  Loop.at_pc (Loop.run sched s) = Loop.Exited ∧
  (Loop.composed (Loop.run sched s) ≤ Loop.composed s + 1)%nat ∧
  (Loop.flushed (Loop.run sched s) ≤ Loop.flushed s + 1)%nat ∧
  Loop.cleanups (Loop.run sched s) = S (Loop.cleanups s) ∧
  (Loop.at_pc s = Loop.AtCheck ∨ Loop.at_pc s = Loop.AtSleep →
   Loop.composed (Loop.run sched s) = Loop.composed s ∧
   Loop.flushed (Loop.run sched s) = Loop.flushed s) ∧
  (∀ s', Loop.at_pc s' ≠ Loop.AtCheck →
         Loop.step (Loop.signal_handler s')
         = Loop.signal_handler (Loop.step s')).
Proof.
  intros Hrun Hloop Hlen.
  assert (Hcomm : ∀ s', Loop.at_pc s' ≠ Loop.AtCheck →
            Loop.step (Loop.signal_handler s')
            = Loop.signal_handler (Loop.step s')).
  { intros [pc' ? ? ? ? ?] Hs'. cbn in Hs'. by destruct pc'. }
  rewrite (run_stopped sched s Hrun).
  replace (length sched) with ((length sched - 6) + 6)%nat by lia.
  rewrite Nat.iter_add.
  destruct s as [pc r pd c f cl]. cbn in Hrun, Hloop. subst r.
  destruct pc; try done;
    (rewrite iter_exited by reflexivity); cbn;
    (repeat split; try lia; try done;
     match goal with H : _ ∨ _ |- _ => by destruct H end).
Qed.

(** A signal arrives in the second iteration, after the test and before
    the frame is composed. *)
Lemma loop_exits_within_one_tick_second_frame :
  let s := Loop.signal_handler (Loop.run (replicate 6 false) Loop.initial) in
  let sched := replicate 6 false in
  Loop.at_pc s = Loop.AtCompose ∧
  Loop.at_pc (Loop.run sched s) = Loop.Exited ∧
  (Loop.composed (Loop.run sched s) ≤ Loop.composed s + 1)%nat ∧
  (Loop.flushed (Loop.run sched s) ≤ Loop.flushed s + 1)%nat ∧
  Loop.cleanups (Loop.run sched s) = S (Loop.cleanups s).
Proof.
  intros s sched.
  destruct (loop_exits_within_one_tick s sched) as (H1 & H2 & H3 & H4 & _).
  - reflexivity.
  - exact I.
  - cbn. lia.
  - split; [reflexivity|]. by repeat split.
Defined.

(** * Further properties of the code *)

(** ** [msleep] *)

(** X1. [msleep] builds a [timespec] worth exactly [ms] milliseconds.
    For [ms >= 0] it is a valid one (seconds not negative, nanoseconds in
    [0, 10^9)); for [ms < 0] a field is negative, which [nanosleep]
    refuses. *)
Theorem msleep_timespec_exact (ms : Z) :
  fst (msleep_timespec ms) * 1000000000 + snd (msleep_timespec ms)
  = ms * 1000000 ∧
  (0 ≤ ms →
   0 ≤ fst (msleep_timespec ms) ∧
   0 ≤ snd (msleep_timespec ms) < 1000000000) ∧
  (ms < 0 →
   fst (msleep_timespec ms) < 0 ∨ snd (msleep_timespec ms) < 0).
Proof.
  unfold msleep_timespec. cbn [fst snd].
  pose proof (Z.quot_rem ms 1000 ltac:(lia)) as Hqr.
  split; [lia|]. split.
  - intros Hms.
    pose proof (Z.rem_bound_pos ms 1000 Hms ltac:(lia)).
    pose proof (Z.quot_pos ms 1000 Hms ltac:(lia)). lia.
  - intros Hms. lia.
Qed.

(** ** More on the SPI transport *)

Lemma chunk_size_pos : (0 < chunk_size)%nat.
Proof. pose proof chunk_size_Z. lia. Qed.

Lemma spi_write_small g data :
  data ≠ [] → (length data ≤ chunk_size)%nat →
  spi_write g data = [Spi_message (spi_fd g) data SPI_SPEED 8].
Proof.
  intros Hne Hlen. rewrite (spi_write_step g data Hne).
  rewrite Nat.min_r by done.
  by rewrite take_ge, drop_ge, spi_write_nil by done.
Qed.

Lemma spi_write_large g data :
  (chunk_size < length data)%nat →
  spi_write g data
  = Spi_message (spi_fd g) (take chunk_size data) SPI_SPEED 8
      :: spi_write g (drop chunk_size data).
Proof.
  intros Hlen. rewrite (spi_write_step g data).
  - by rewrite Nat.min_l by lia.
  - intros ->. simpl in Hlen. lia.
Qed.

(** X2. The [k]-th transfer of a write carries the bytes of the payload
    from offset [4096 * k] on, 4096 of them or what is left; there is a
    [k]-th transfer exactly when that offset is inside the payload. *)
Theorem spi_write_offsets (g : globals) (data : list Z) (k : nat) :
  transfers (spi_write g data) !! k
  = if decide (k * chunk_size < length data)%nat
    then Some (take chunk_size (drop (k * chunk_size) data))
    else None.
Proof.
  revert k. induction data as [|data Hne IH] using spi_write_ind; intros k.
  - rewrite spi_write_nil. cbn [transfers length].
    rewrite decide_False by lia. apply lookup_nil.
  - pose proof chunk_size_pos as Hcs.
    assert (Hpos : (0 < length data)%nat) by (destruct data; simpl; [done|lia]).
    destruct (decide (length data ≤ chunk_size)%nat) as [Hle|Hgt].
    + rewrite spi_write_small by done. cbn [transfers].
      destruct k as [|k].
      * rewrite Nat.mul_0_l, decide_True by done. rewrite lookup_cons.
        cbn [drop]. by rewrite take_ge.
      * rewrite decide_False by (rewrite Nat.mul_succ_l; lia).
        rewrite lookup_cons. apply lookup_nil.
    + rewrite Nat.min_l in IH by lia.
      rewrite spi_write_large by lia. cbn [transfers].
      destruct k as [|k].
      * rewrite Nat.mul_0_l, decide_True by done. by rewrite lookup_cons.
      * rewrite lookup_cons. rewrite (IH k), length_drop, drop_drop.
        rewrite Nat.mul_succ_l, (Nat.add_comm (k * chunk_size) chunk_size).
        repeat case_decide; try reflexivity; exfalso; lia.
Qed.

(** The sizes of the transfers of a write. *)
Lemma transfer_sizes_spi_write (g : globals) (data : list Z) :
  transfer_sizes (spi_write g data)
  = replicate (length data / chunk_size) chunk_size
    ++ (if decide (length data `mod` chunk_size = 0)%nat then []
        else [(length data `mod` chunk_size)%nat]).
Proof.
  unfold transfer_sizes.
  induction data as [|data Hne IH] using spi_write_ind.
  - rewrite spi_write_nil. cbn [transfers map length].
    rewrite Nat.Div0.div_0_l, Nat.Div0.mod_0_l. by rewrite decide_True.
  - pose proof chunk_size_pos as Hcs.
    assert (Hpos : (0 < length data)%nat) by (destruct data; simpl; [done|lia]).
    destruct (decide (length data ≤ chunk_size)%nat) as [Hle|Hgt].
    + rewrite spi_write_small by done. cbn [transfers map].
      destruct (decide (length data = chunk_size)) as [->|Hlt].
      * rewrite Nat.div_same, Nat.Div0.mod_same by lia.
        by rewrite decide_True.
      * rewrite Nat.div_small, Nat.mod_small by lia.
        by rewrite decide_False by lia.
    + rewrite Nat.min_l in IH by lia.
      rewrite spi_write_large by lia. cbn [transfers map].
      rewrite IH, length_take, length_drop, Nat.min_l by lia.
      assert (Hdiv : (length data / chunk_size
                      = S ((length data - chunk_size) / chunk_size))%nat).
      { replace (length data) with (length data - chunk_size + 1 * chunk_size)%nat
          at 1 by lia.
        rewrite Nat.div_add by lia. lia. }
      assert (Hmod : (length data `mod` chunk_size
                      = (length data - chunk_size) `mod` chunk_size)%nat).
      { replace (length data) with (length data - chunk_size + 1 * chunk_size)%nat
          at 1 by lia.
        by rewrite Nat.Div0.mod_add. }
      by rewrite Hdiv, Hmod.
Qed.

(** X3. The sizes of the transfers of a write of [L] bytes: [L / 4096]
    transfers of 4096 bytes, then one of [L mod 4096] bytes unless that
    is zero.  Every transfer but the last is full. *)
Theorem spi_write_sizes (g : globals) (data : list Z) :
  transfer_sizes (spi_write g data)
  = replicate (length data / chunk_size) chunk_size
    ++ (if decide (length data `mod` chunk_size = 0)%nat then []
        else [(length data `mod` chunk_size)%nat]).
Proof. intros. by apply transfer_sizes_spi_write. Qed.

(** ** Command and data framing *)

Lemma transfers_app (a b : list event) :
  transfers (a ++ b) = transfers a ++ transfers b.
Proof.
  induction a as [|ev a IH]; [done|].
  destruct ev; cbn [app transfers]; by rewrite ?IH.
Qed.

Lemma gpio_sets_app (a b : list event) :
  gpio_sets (a ++ b) = gpio_sets a ++ gpio_sets b.
Proof.
  induction a as [|ev a IH]; [done|].
  destruct ev; cbn [app gpio_sets]; by rewrite ?IH.
Qed.

Lemma gpio_sets_spi_write g data : gpio_sets (spi_write g data) = [].
Proof.
  rewrite spi_write_events.
  induction (transfers (spi_write g data)) as [|t ts IH]; [done|]. exact IH.
Qed.

Lemma spi_write_byte g (c : Z) :
  spi_write g [c] = [Spi_message (spi_fd g) [c] SPI_SPEED 8].
Proof.
  apply spi_write_small; [done|]. pose proof chunk_size_Z.
  change (length [c]) with 1%nat. lia.
Qed.

Lemma spi_write_pair g (a b : Z) :
  spi_write g [a; b] = [Spi_message (spi_fd g) [a; b] SPI_SPEED 8].
Proof.
  apply spi_write_small; [done|]. pose proof chunk_size_Z.
  change (length [a; b]) with 2%nat. lia.
Qed.

(** X4. A command is one GPIO write of 0 to the data/command line and one
    transfer of the one byte.  Data, of any length, is one GPIO write of 1
    and then the bytes, in as many transfers as they need.  Whatever the
    level of the line before, the panel reads the command byte as a
    command and every data byte as data. *)
Theorem ssd1351_framing (g : globals) (lvl : bool) (c : Z) (data : list Z)
  (rest : list event) :
  ssd1351_cmd g c
  = [Gpio_set (dc_req g) 0; Spi_message (spi_fd g) [c] SPI_SPEED 8] ∧
  gpio_sets (ssd1351_data g data) = [(dc_req g, 1)] ∧
  concat (transfers (ssd1351_data g data)) = data ∧
  wire (dc_req g) lvl (ssd1351_cmd g c ++ ssd1351_data g data ++ rest)
  = (false, c) :: map (pair true) data ++ wire (dc_req g) true rest.
Proof.
  split; [|split; [|split]].
  - unfold ssd1351_cmd, gpio_set. by rewrite spi_write_byte.
  - unfold ssd1351_data, gpio_set. cbn [app gpio_sets].
    by rewrite gpio_sets_spi_write.
  - unfold ssd1351_data, gpio_set. cbn [app transfers].
    apply spi_write_concat.
  - by rewrite wire_cmd, wire_data.
Qed.

(** ** The shape of a flush *)

Lemma length_flush_buf (fb : list Z) (idx : list nat) :
  length (flush_buf fb idx) = (2 * length idx)%nat.
Proof.
  induction idx as [|i idx IH]; [done|].
  cbn [flush_buf length]. rewrite IH. lia.
Qed.

Lemma transfer_sizes_cmd g c : transfer_sizes (ssd1351_cmd g c) = [1%nat].
Proof.
  unfold transfer_sizes, ssd1351_cmd, gpio_set. by rewrite spi_write_byte.
Qed.

Lemma transfer_sizes_data g data :
  transfer_sizes (ssd1351_data g data)
  = replicate (length data / chunk_size) chunk_size
    ++ (if decide (length data `mod` chunk_size = 0)%nat then []
        else [(length data `mod` chunk_size)%nat]).
Proof. apply (transfer_sizes_spi_write g data). Qed.

Lemma transfer_sizes_data_pair g (a b : Z) :
  transfer_sizes (ssd1351_data g [a; b]) = [2%nat].
Proof.
  unfold transfer_sizes, ssd1351_data, gpio_set. by rewrite spi_write_pair.
Qed.

Lemma length_spi_write g data :
  length (spi_write g data) = length (transfer_sizes (spi_write g data)).
Proof.
  unfold transfer_sizes. rewrite spi_write_events at 1.
  by rewrite !length_map.
Qed.

Lemma transfer_sizes_app (a b : list event) :
  transfer_sizes (a ++ b) = transfer_sizes a ++ transfer_sizes b.
Proof. unfold transfer_sizes. by rewrite transfers_app, map_app. Qed.

(** X5. Whatever the frame buffer holds, a flush is 19 system calls: six
    writes to the data/command line, alternating 0 and 1, and thirteen
    SPI transfers, of 1, 2, 1, 2 and 1 bytes for the addressing and then
    eight full transfers of 4096 bytes for the frame. *)
Theorem ssd1351_flush_shape (g : globals) :
  transfer_sizes (ssd1351_flush g)
  = [1; 2; 1; 2; 1]%nat ++ replicate 8 chunk_size ∧
  gpio_sets (ssd1351_flush g)
  = [ (dc_req g, 0); (dc_req g, 1); (dc_req g, 0); (dc_req g, 1);
      (dc_req g, 0); (dc_req g, 1) ] ∧
  length (ssd1351_flush g) = 19%nat.
Proof.
  assert (Hsz : transfer_sizes (ssd1351_flush g)
                = [1; 2; 1; 2; 1]%nat ++ replicate 8 chunk_size).
  { unfold ssd1351_flush.
    rewrite !transfer_sizes_app, !transfer_sizes_cmd.
    set (buf := flush_buf (framebuf g) (seq 0 NPIX)).
    assert (Hbuf : length buf = (2 * NPIX)%nat)
      by (unfold buf; by rewrite length_flush_buf, length_seq).
    rewrite (transfer_sizes_data_pair g 0 127).
    rewrite (transfer_sizes_data g buf), Hbuf.
    replace (2 * NPIX)%nat with (8 * chunk_size)%nat
      by (pose proof NPIX_Z; pose proof chunk_size_Z; lia).
    pose proof chunk_size_pos.
    rewrite Nat.div_mul, Nat.Div0.mod_mul by lia.
    rewrite decide_True by done. reflexivity. }
  assert (Hgp : gpio_sets (ssd1351_flush g)
                = [ (dc_req g, 0); (dc_req g, 1); (dc_req g, 0); (dc_req g, 1);
                    (dc_req g, 0); (dc_req g, 1) ]).
  { unfold ssd1351_flush, ssd1351_cmd, ssd1351_data, gpio_set.
    rewrite !gpio_sets_app. cbn [gpio_sets app Z.eqb].
    by rewrite !gpio_sets_spi_write. }
  split; [exact Hsz|]. split; [exact Hgp|].
  unfold ssd1351_flush, ssd1351_cmd, ssd1351_data, gpio_set.
  rewrite !length_app. cbn [length].
  set (buf := flush_buf (framebuf g) (seq 0 NPIX)).
  assert (Hbuf : length buf = (2 * NPIX)%nat)
    by (unfold buf; by rewrite length_flush_buf, length_seq).
  rewrite !spi_write_byte.
  rewrite (spi_write_pair g 0 127).
  rewrite length_spi_write, transfer_sizes_spi_write, Hbuf.
  replace (2 * NPIX)%nat with (8 * chunk_size)%nat
    by (pose proof NPIX_Z; pose proof chunk_size_Z; lia).
  pose proof chunk_size_pos.
  rewrite Nat.div_mul, Nat.Div0.mod_mul by lia.
  rewrite decide_True by done. reflexivity.
Qed.

(** ** Pixels on the wire *)

Lemma decode_pixel_bytes (fb : list Z) :
  Forall uint16 fb → decode_pixels (fb ≫= pixel_bytes) = fb.
Proof.
  induction 1 as [|p fb Hp _ IH]; [done|].
  rewrite bind_cons. unfold pixel_bytes at 1. cbn [app decode_pixels].
  rewrite IH. f_equal. unfold uint16 in Hp.
  rewrite (Z.mod_small (p / 256)) by (Z.div_mod_to_equations; lia).
  Z.div_mod_to_equations. lia.
Qed.

Lemma pixel_bytes_range (fb : list Z) :
  Forall (fun b => 0 ≤ b < 256) (fb ≫= pixel_bytes).
Proof.
  induction fb as [|p fb IH]; [constructor|].
  rewrite bind_cons. unfold pixel_bytes at 1. cbn [app].
  repeat constructor; try exact IH; try (apply Z.mod_pos_bound; lia);
    apply Z.mod_pos_bound; lia.
Qed.

(** X6. The byte buffer a flush sends loses nothing: for a frame of
    16-bit pixels, reading it back two bytes at a time, high byte first,
    gives the frame again; and every element of the buffer is a byte. *)
Theorem flush_buf_roundtrip (fb : list Z) :
  length fb = NPIX → Forall uint16 fb →
  decode_pixels (flush_buf fb (seq 0 NPIX)) = fb ∧
  Forall (fun b => 0 ≤ b < 256) (flush_buf fb (seq 0 NPIX)).
Proof.
  intros Hlen Hfb. rewrite (flush_buf_frame fb Hlen). split.
  - by apply decode_pixel_bytes.
  - apply pixel_bytes_range.
Qed.

(** The statically initialised frame buffer. *)
Lemma flush_buf_roundtrip_initial :
  decode_pixels (flush_buf (framebuf initial_globals) (seq 0 NPIX))
  = framebuf initial_globals ∧
  Forall (fun b => 0 ≤ b < 256)
         (flush_buf (framebuf initial_globals) (seq 0 NPIX)).
Proof.
  apply (flush_buf_roundtrip (framebuf initial_globals)).
  - apply length_replicate.
  - apply Forall_replicate. unfold uint16. lia.
Defined.

(** ** The gradient for any width *)

(** The colour of a column, for any width. *)
Lemma scanner_color_formula (pos sw x : Z) :
  0 ≤ x < WIDTH → -1000000 ≤ pos ≤ 1000000 →
  scanner_color pos sw x
  = Ok (if decide (Z.abs (x - pos) < sw)
        then Z.max 8 (31 - Z.abs (x - pos) * 31 / sw)
        else COL_BLACK).
Proof.
  unfold WIDTH. intros Hx Hpos.
  unfold scanner_color, CInt.sub, CInt.abs, CInt.mul, CInt.div.
  rewrite (check_ok (x - pos)) by (unfold INT_MIN, INT_MAX; lia).
  rewrite bind_Ok.
  rewrite (check_ok (Z.abs (x - pos))) by (unfold INT_MIN, INT_MAX; lia).
  rewrite bind_Ok.
  set (dist := Z.abs (x - pos)).
  assert (Hd : 0 ≤ dist ≤ 1000200) by (unfold dist; lia).
  destruct (Z.ltb_spec dist sw) as [Hlt|Hge].
  - rewrite decide_True by done.
    rewrite (check_ok (dist * 31)) by (unfold INT_MIN, INT_MAX; lia).
    rewrite bind_Ok.
    destruct (Z.eqb_spec sw 0) as [->|Hnz]; [lia|].
    rewrite Z.quot_div_nonneg by lia.
    assert (Hq : 0 ≤ dist * 31 / sw < 31).
    { split; [apply Z.div_pos; lia|].
      apply Z.div_lt_upper_bound; lia. }
    rewrite (check_ok (dist * 31 / sw)) by (unfold INT_MIN, INT_MAX; lia).
    rewrite bind_Ok.
    rewrite (check_ok (31 - dist * 31 / sw)) by (unfold INT_MIN, INT_MAX; lia).
    rewrite bind_Ok. f_equal.
    replace (if 31 - dist * 31 / sw <? 8 then 8 else 31 - dist * 31 / sw)
      with (Z.max 8 (31 - dist * 31 / sw))
      by (destruct (Z.ltb_spec (31 - dist * 31 / sw) 8); lia).
    apply low5_small. lia.
  - by rewrite decide_False by lia.
Qed.

(** X7. For every column of the panel, every centre within a million of
    the panel and every width, the colour of the column is defined: it
    is black when the distance from the centre is not below the width
    (always so for a width of zero or less), and otherwise the red
    intensity [max 8 (31 - dist * 31 / width)]. *)
Theorem scanner_color_any_width (pos sw x : Z) :
  0 ≤ x < WIDTH → -1000000 ≤ pos ≤ 1000000 →
  scanner_color pos sw x
  = Ok (if decide (Z.abs (x - pos) < sw)
        then Z.max 8 (31 - Z.abs (x - pos) * 31 / sw)
        else COL_BLACK).
Proof. intros. by apply scanner_color_formula. Qed.

(** The column under the centre of a bar of width 20. *)
Lemma scanner_color_any_width_centre :
  scanner_color 64 20 64
  = Ok (if decide (Z.abs (64 - 64) < 20)
        then Z.max 8 (31 - Z.abs (64 - 64) * 31 / 20)
        else COL_BLACK).
Proof. apply (scanner_color_any_width 64 20 64); unfold WIDTH; lia. Defined.

(** X8. The profile of the bar.  Two columns at the same distance from
    the centre have the same colour; of two columns the one nearer the
    centre is at least as bright; no column is brighter than 31; a lit
    column is never darker than 8; and with a positive width the column
    under the centre has the full intensity 31. *)
Theorem scanner_color_profile (pos sw x1 x2 : Z) :
  0 ≤ x1 < WIDTH → 0 ≤ x2 < WIDTH → -1000000 ≤ pos ≤ 1000000 →
  Z.abs (x1 - pos) ≤ Z.abs (x2 - pos) →
  ∃ c1 c2,
    scanner_color pos sw x1 = Ok c1 ∧ scanner_color pos sw x2 = Ok c2 ∧
    c2 ≤ c1 ∧ 0 ≤ c2 ∧ c1 ≤ 31 ∧
    (Z.abs (x1 - pos) = Z.abs (x2 - pos) → c1 = c2) ∧
    (Z.abs (x2 - pos) < sw → 8 ≤ c2) ∧
    (x1 = pos → 0 < sw → c1 = 31).
Proof.
  intros Hx1 Hx2 Hpos Hle.
  rewrite (scanner_color_formula pos sw x1), (scanner_color_formula pos sw x2)
    by done.
  eexists _, _. split; [reflexivity|]. split; [reflexivity|].
  set (d1 := Z.abs (x1 - pos)) in *. set (d2 := Z.abs (x2 - pos)) in *.
  assert (Hd1 : 0 ≤ d1) by (unfold d1; lia).
  unfold COL_BLACK.
  assert (Hq : ∀ d, 0 ≤ d < sw → 0 ≤ d * 31 / sw < 31).
  { intros d Hd. split; [apply Z.div_pos; lia|].
    apply Z.div_lt_upper_bound; lia. }
  assert (Hmono : d2 < sw → d1 * 31 / sw ≤ d2 * 31 / sw).
  { intros Hlt. apply Z.div_le_mono; lia. }
  repeat split.
  - repeat case_decide; try lia;
      try (specialize (Hmono ltac:(lia)); lia);
      pose proof (Hq d1 ltac:(lia)); lia.
  - case_decide; lia.
  - case_decide; [|lia]. pose proof (Hq d1 ltac:(lia)). lia.
  - intros Heq. by rewrite Heq.
  - intros Hlt. rewrite decide_True by done. lia.
  - intros -> Hsw. unfold d1. rewrite Z.sub_diag. cbn [Z.abs].
    rewrite decide_True by done. rewrite Z.mul_0_l, Z.div_0_l by lia. lia.
Qed.

(** Columns 60 and 70 of a bar of width 20 centred at 64. *)
Lemma scanner_color_profile_example :
  ∃ c1 c2,
    scanner_color 64 20 60 = Ok c1 ∧ scanner_color 64 20 70 = Ok c2 ∧
    c2 ≤ c1 ∧ 0 ≤ c2 ∧ c1 ≤ 31 ∧
    (Z.abs (60 - 64) = Z.abs (70 - 64) → c1 = c2) ∧
    (Z.abs (70 - 64) < 20 → 8 ≤ c2) ∧
    (60 = 64 → 0 < 20 → c1 = 31).
Proof.
  apply (scanner_color_profile 64 20 60 70); unfold WIDTH; lia.
Defined.

(** ** The frame for any width *)

Lemma pixel_index_inv (i : nat) :
  (i < NPIX)%nat →
  pixel_index (Z.of_nat i mod WIDTH) (Z.of_nat i / WIDTH) = i ∧
  0 ≤ Z.of_nat i mod WIDTH < WIDTH ∧ 0 ≤ Z.of_nat i / WIDTH < HEIGHT.
Proof.
  intros Hi. pose proof NPIX_Z. unfold pixel_index, WIDTH, HEIGHT.
  repeat split; Z.div_mod_to_equations; lia.
Qed.

(** The frame of [draw_scanner], for any width. *)
Lemma draw_scanner_frame_at
  (welcome_image : list Z) (g : globals) (pos sw : Z) :
  length welcome_image = NPIX → length (framebuf g) = NPIX →
  -1000000 ≤ pos ≤ 1000000 →
  draw_scanner welcome_image g pos sw
  = Ok (set_framebuf (frame_at welcome_image pos sw) g,
        ssd1351_flush (set_framebuf (frame_at welcome_image pos sw) g)) ∧
  length (frame_at welcome_image pos sw) = NPIX ∧
  (∀ x y, 0 ≤ x < WIDTH → 0 ≤ y < HEIGHT →
     frame_at welcome_image pos sw !! pixel_index x y
     = if decide (y < HEIGHT - 4) then welcome_image !! pixel_index x y
       else Some (if decide (Z.abs (x - pos) < sw)
                  then Z.max 8 (31 - Z.abs (x - pos) * 31 / sw)
                  else COL_BLACK)) ∧
  (Forall uint16 welcome_image →
   Forall uint16 (frame_at welcome_image pos sw)).
Proof.
  intros Hw Hf Hpos.
  destruct (scan_columns_lookup pos sw
              (fun x => if decide (Z.abs (x - pos) < sw)
                        then Z.max 8 (31 - Z.abs (x - pos) * 31 / sw)
                        else COL_BLACK)
              (seqZ 0 WIDTH) welcome_image) as (frame & Hrun & Hlen & Hlk).
  { intros x Hx%elem_of_columns. split; [done|].
    by apply scanner_color_formula. }
  { done. }
  assert (Hfa : frame_at welcome_image pos sw = frame)
    by (unfold frame_at; by rewrite Hrun).
  rewrite Hfa.
  assert (Hpix : ∀ x y, 0 ≤ x < WIDTH → 0 ≤ y < HEIGHT →
            frame !! pixel_index x y
            = if decide (y < HEIGHT - 4) then welcome_image !! pixel_index x y
              else Some (if decide (Z.abs (x - pos) < sw)
                         then Z.max 8 (31 - Z.abs (x - pos) * 31 / sw)
                         else COL_BLACK)).
  { intros x y Hx Hy. rewrite (Hlk x y Hx Hy).
    repeat case_decide; try reflexivity;
      exfalso; rewrite ?elem_of_columns in *; lia. }
  split; [|split; [done|split; [done|]]].
  - unfold draw_scanner, compose. rewrite memcpy_frame by done.
    by rewrite Hrun, bind_Ok.
  - intros Hbg. apply Forall_lookup. intros i p Hip.
    assert (Hi : (i < NPIX)%nat) by (rewrite <- Hlen; by eapply lookup_lt_Some).
    destruct (pixel_index_inv i Hi) as (Hidx & Hx & Hy).
    rewrite <- Hidx, (Hpix _ _ Hx Hy), Hidx in Hip.
    case_decide.
    + by eapply (proj1 (Forall_lookup _ _) Hbg).
    + injection Hip as <-. unfold uint16, COL_BLACK.
      case_decide; [|lia].
      assert (0 ≤ Z.abs (Z.of_nat i `mod` WIDTH - pos) * 31 / sw < 31).
      { split; [apply Z.div_pos; lia|].
        apply Z.div_lt_upper_bound; lia. }
      lia.
Qed.

(** X9. For every background of the size of the panel, every centre
    within a million of it and every width, [draw_scanner] succeeds; the
    frame it leaves and flushes is a function of the background, the
    centre and the width only, not of what the frame buffer held
    before; it has the size of the panel, the background in rows
    0..123 and the bar in rows 124..127; and if the background is made
    of 16-bit pixels, so is the frame. *)
Theorem draw_scanner_any_width
  (welcome_image : list Z) (g : globals) (pos sw : Z) :
  length welcome_image = NPIX → length (framebuf g) = NPIX →
  -1000000 ≤ pos ≤ 1000000 →
  draw_scanner welcome_image g pos sw
  = Ok (set_framebuf (frame_at welcome_image pos sw) g,
        ssd1351_flush (set_framebuf (frame_at welcome_image pos sw) g)) ∧
  length (frame_at welcome_image pos sw) = NPIX ∧
  (∀ x y, 0 ≤ x < WIDTH → 0 ≤ y < HEIGHT →
     frame_at welcome_image pos sw !! pixel_index x y
     = if decide (y < HEIGHT - 4) then welcome_image !! pixel_index x y
       else Some (if decide (Z.abs (x - pos) < sw)
                  then Z.max 8 (31 - Z.abs (x - pos) * 31 / sw)
                  else COL_BLACK)) ∧
  (Forall uint16 welcome_image →
   Forall uint16 (frame_at welcome_image pos sw)).
Proof. intros. by apply draw_scanner_frame_at. Qed.

(** A bar of width 30 centred at the left edge, over a uniform
    background. *)
Lemma draw_scanner_any_width_edge :
  draw_scanner (replicate NPIX 0x1234) initial_globals 0 30
  = Ok (set_framebuf (frame_at (replicate NPIX 0x1234) 0 30) initial_globals,
        ssd1351_flush
          (set_framebuf (frame_at (replicate NPIX 0x1234) 0 30)
                        initial_globals)) ∧
  length (frame_at (replicate NPIX 0x1234) 0 30) = NPIX ∧
  Forall uint16 (frame_at (replicate NPIX 0x1234) 0 30).
Proof.
  destruct (draw_scanner_any_width (replicate NPIX 0x1234) initial_globals 0 30)
    as (Hrun & Hlen & _ & Hu16).
  - apply length_replicate.
  - apply length_replicate.
  - lia.
  - split; [exact Hrun|]. split; [exact Hlen|].
    apply Hu16, Forall_replicate. unfold uint16. lia.
Defined.

(** ** The update of the animation state *)



(** X11. After the first update the animation repeats every 54 ticks and
    no sooner; its positions are among the values 10, 14, ..., 118; and
    every later update moves the position by exactly 4 in the current
    direction: the clamp never cuts a step short. *)
Theorem anim_state_period (n : nat) :
  anim_state (S (n + 54)) = anim_state (S n) ∧
  (∀ k, (0 < k < 54)%nat → anim_state (S (n + k)) ≠ anim_state (S n)) ∧
  (fst (anim_state (S n)) - 10) mod 4 = 0 ∧
  fst (anim_state (S (S n)))
  = fst (anim_state (S n)) + snd (anim_state (S n)) * 4.
Proof.
  rewrite !anim_state_triangle. unfold triangle.
  split; [|split; [|split]].
  - rewrite Nat2Z.inj_add.
    replace (Z.of_nat n + Z.of_nat 54) with (Z.of_nat n + 1 * 54) by lia.
    by rewrite Z.mod_add.
  - intros k Hk. rewrite anim_state_triangle. unfold triangle.
    rewrite Nat2Z.inj_add.
    set (a := Z.of_nat n mod 54). set (b := (Z.of_nat n + Z.of_nat k) mod 54).
    assert (Ha : 0 ≤ a < 54) by (apply Z.mod_pos_bound; lia).
    assert (Hb : 0 ≤ b < 54) by (apply Z.mod_pos_bound; lia).
    assert (Hab : a ≠ b).
    { unfold a, b. Z.div_mod_to_equations. lia. }
    split_ifs; intros [= ]; lia.
  - set (a := Z.of_nat n mod 54).
    assert (Ha : 0 ≤ a < 54) by (apply Z.mod_pos_bound; lia).
    split_ifs; cbn [fst]; Z.div_mod_to_equations; lia.
  - rewrite Nat2Z.inj_succ.
    set (a := Z.of_nat n mod 54). set (b := Z.succ (Z.of_nat n) mod 54).
    assert (Ha : 0 ≤ a < 54) by (apply Z.mod_pos_bound; lia).
    assert (Hab : a < 53 ∧ b = a + 1 ∨ a = 53 ∧ b = 0).
    { unfold a, b. Z.div_mod_to_equations. lia. }
    split_ifs; cbn [fst snd]; lia.
Qed.

(** ** The loop and its signals *)

(** The state of the loop after any number of steps without a signal. *)
Lemma run_no_signal (q r : nat) :
  (r < 5)%nat →
  Loop.run (replicate (5 * q + r) false) Loop.initial
  = {| Loop.at_pc :=
         match r with
         | 0 => Loop.AtCheck | 1 => Loop.AtCompose | 2 => Loop.AtFlush
         | 3 => Loop.AtAdvance | _ => Loop.AtSleep
         end%nat;
       Loop.running := true;
       Loop.pos_dir := if (r <? 4)%nat then anim_state q else anim_state (S q);
       Loop.composed := if (r <? 2)%nat then q else S q;
       Loop.flushed := if (r <? 3)%nat then q else S q;
       Loop.cleanups := 0 |}.
Proof.
  intros Hr. rewrite replicate_add, run_app, run_ticks.
  do 5 (destruct r as [|r]; [reflexivity|]). lia.
Qed.

(** X12. As long as no signal arrives the loop goes on: after [5 q + r]
    steps of the main thread it is at the [r]-th point of its [q]-th
    iteration, the flag still set, with [q] frames drawn (one more from
    the point where the current one is composed, or flushed, on), the
    state updated [q] times (one more once the update of this iteration
    is done), and [hw_cleanup] not called. *)
Theorem loop_without_signal (q r : nat) :
  (r < 5)%nat →
  Loop.run (replicate (5 * q + r) false) Loop.initial
  = {| Loop.at_pc :=
         match r with
         | 0 => Loop.AtCheck | 1 => Loop.AtCompose | 2 => Loop.AtFlush
         | 3 => Loop.AtAdvance | _ => Loop.AtSleep
         end%nat;
       Loop.running := true;
       Loop.pos_dir := if (r <? 4)%nat then anim_state q else anim_state (S q);
       Loop.composed := if (r <? 2)%nat then q else S q;
       Loop.flushed := if (r <? 3)%nat then q else S q;
       Loop.cleanups := 0 |}.
Proof. intros. by apply run_no_signal. Qed.

(** Two whole iterations and the first three steps of the third. *)
Lemma loop_without_signal_third :
  Loop.run (replicate (5 * 2 + 3) false) Loop.initial
  = {| Loop.at_pc := Loop.AtAdvance; Loop.running := true;
       Loop.pos_dir := anim_state 2;
       Loop.composed := 3; Loop.flushed := 3; Loop.cleanups := 0 |}.
Proof. apply (loop_without_signal 2 3). lia. Defined.

Lemma loop_inv_step (s : Loop.state) : loop_inv s → loop_inv (Loop.step s).
Proof.
  destruct s as [pc r pd c f cl]. unfold loop_inv, Loop.step. cbn.
  destruct pc, r; cbn; intuition lia.
Qed.

Lemma loop_inv_signal (s : Loop.state) :
  loop_inv s → loop_inv (Loop.signal_handler s).
Proof.
  destruct s as [pc r pd c f cl]. unfold loop_inv. cbn.
  destruct pc; cbn; intuition lia.
Qed.

Lemma loop_inv_run (sched : list bool) (s : Loop.state) :
  loop_inv s → loop_inv (Loop.run sched s).
Proof.
  revert s. induction sched as [|sig sched IH]; intros s Hs; [done|].
  cbn [Loop.run]. apply IH, loop_inv_step.
  destruct sig; [by apply loop_inv_signal | done].
Qed.

(** X13. Whenever signals arrive, the loop never leaves a frame half
    done: at every step the frames flushed are the frames composed,
    except between composing and flushing, where one is pending; the
    thread leaves the loop only with the flag clear and every composed
    frame flushed; and [hw_cleanup] is called at most once, exactly when
    the thread exits. *)
Theorem loop_frames_complete (sched : list bool) :
  let s := Loop.run sched Loop.initial in
  Loop.composed s
  = match Loop.at_pc s with
    | Loop.AtFlush => S (Loop.flushed s)
    | _ => Loop.flushed s
    end ∧
  Loop.cleanups s
  = match Loop.at_pc s with
    | Loop.Exited => 1%nat
    | _ => 0%nat
    end ∧
  (Loop.at_pc s = Loop.AtCleanup ∨ Loop.at_pc s = Loop.Exited →
   Loop.running s = false ∧ Loop.composed s = Loop.flushed s).
Proof.
  intros s.
  assert (Hinv : loop_inv s).
  { apply loop_inv_run. unfold loop_inv. by cbn. }
  destruct s as [pc r pd c f cl]. unfold loop_inv in Hinv. cbn in *.
  destruct pc; intuition (try lia; try discriminate).
Qed.

(** X14. Only the first signal counts: a schedule and the schedule with
    every later signal removed lead to the same state, from any state. *)
Theorem loop_first_signal_only (sched : list bool) (s : Loop.state) :
  Loop.run (first_signal_only sched) s = Loop.run sched s.
Proof.
  revert s. induction sched as [|sig sched IH]; intros s; [done|].
  destruct sig; cbn [first_signal_only Loop.run]; [|apply IH].
  assert (Hstop : Loop.running (Loop.step (Loop.signal_handler s)) = false)
    by (by rewrite step_running).
  rewrite !(run_stopped _ _ Hstop). by rewrite length_replicate.
Qed.

(** ** Start-up, step by step *)

(** The run of [hw_init] when every request is granted. *)
Lemma hw_init_granted (e : env) :
  init_ok e = true →
  ∃ d r,
    env_line_dc e = Some d ∧ env_line_rst e = Some r ∧
    0 ≤ env_open_spi e ∧ 0 ≤ env_open_gpio e ∧
    hw_init e initial_globals
    = (0,
       {| spi_fd := env_open_spi e; gpio_fd := env_open_gpio e;
          dc_req := d; rst_req := r; framebuf := framebuf initial_globals |},
       [ Open SPI_DEVICE (env_open_spi e);
         Spi_setup (env_open_spi e) "SPI_IOC_WR_MODE" 0;
         Spi_setup (env_open_spi e) "SPI_IOC_WR_BITS_PER_WORD" 8;
         Spi_setup (env_open_spi e) "SPI_IOC_WR_MAX_SPEED_HZ" 40000000;
         Open "/dev/gpiochip0" (env_open_gpio e);
         Get_line (env_open_gpio e) 24 (Some d);
         Get_line (env_open_gpio e) 25 (Some r) ]
       ++ ssd1351_init
            {| spi_fd := env_open_spi e; gpio_fd := env_open_gpio e;
               dc_req := d; rst_req := r;
               framebuf := framebuf initial_globals |}).
Proof.
  destruct e as [spi gpio dc rst]. unfold init_ok.
  cbn [env_open_spi env_open_gpio env_line_dc env_line_rst].
  intros Hok.
  apply andb_prop in Hok as [Hok Hrst]. apply andb_prop in Hok as [Hok Hdc].
  apply andb_prop in Hok as [Hspi Hgpio].
  apply Z.leb_le in Hspi, Hgpio.
  apply bool_decide_eq_true in Hdc as [d ->].
  apply bool_decide_eq_true in Hrst as [r ->].
  exists d, r. do 4 (split; [done|]).
  unfold hw_init. cbn -[ssd1351_init Z.ltb Z.leb].
  rewrite (proj2 (Z.ltb_ge spi 0)), (proj2 (Z.ltb_ge gpio 0)) by lia.
  reflexivity.
Qed.

(** X15. When both devices open and both lines are granted, [hw_init]
    returns 0 having made these calls in this order: open the SPI
    device, set its mode to 0, its word size to 8 and its speed to
    40 MHz, open the GPIO chip, request line 24 and then line 25, and
    run [ssd1351_init]; it leaves the four descriptors in the globals
    and the frame buffer as it was. *)
Theorem hw_init_success (e : env) :
  init_ok e = true →
  ∃ d r,
    env_line_dc e = Some d ∧ env_line_rst e = Some r ∧
    0 ≤ env_open_spi e ∧ 0 ≤ env_open_gpio e ∧
    hw_init e initial_globals
    = (0,
       {| spi_fd := env_open_spi e; gpio_fd := env_open_gpio e;
          dc_req := d; rst_req := r; framebuf := framebuf initial_globals |},
       [ Open SPI_DEVICE (env_open_spi e);
         Spi_setup (env_open_spi e) "SPI_IOC_WR_MODE" 0;
         Spi_setup (env_open_spi e) "SPI_IOC_WR_BITS_PER_WORD" 8;
         Spi_setup (env_open_spi e) "SPI_IOC_WR_MAX_SPEED_HZ" 40000000;
         Open "/dev/gpiochip0" (env_open_gpio e);
         Get_line (env_open_gpio e) 24 (Some d);
         Get_line (env_open_gpio e) 25 (Some r) ]
       ++ ssd1351_init
            {| spi_fd := env_open_spi e; gpio_fd := env_open_gpio e;
               dc_req := d; rst_req := r;
               framebuf := framebuf initial_globals |}).
Proof. intros. by apply hw_init_granted. Qed.

(** Descriptors 3 to 6. *)
Lemma hw_init_success_all :
  ∃ d r,
    Some 5 = Some d ∧ Some 6 = Some r ∧ 0 ≤ 3 ∧ 0 ≤ 4 ∧
    hw_init {| env_open_spi := 3; env_open_gpio := 4;
               env_line_dc := Some 5; env_line_rst := Some 6 |}
            initial_globals
    = (0,
       {| spi_fd := 3; gpio_fd := 4; dc_req := d; rst_req := r;
          framebuf := framebuf initial_globals |},
       [ Open SPI_DEVICE 3;
         Spi_setup 3 "SPI_IOC_WR_MODE" 0;
         Spi_setup 3 "SPI_IOC_WR_BITS_PER_WORD" 8;
         Spi_setup 3 "SPI_IOC_WR_MAX_SPEED_HZ" 40000000;
         Open "/dev/gpiochip0" 4;
         Get_line 4 24 (Some d);
         Get_line 4 25 (Some r) ]
       ++ ssd1351_init
            {| spi_fd := 3; gpio_fd := 4; dc_req := d; rst_req := r;
               framebuf := framebuf initial_globals |}).
Proof.
  apply (hw_init_success {| env_open_spi := 3; env_open_gpio := 4;
                            env_line_dc := Some 5; env_line_rst := Some 6 |}).
  reflexivity.
Defined.

(** X16. When a step of [hw_init] fails it returns -1 at once: the later
    steps are not attempted, exactly one line goes to standard error and
    it names the step that failed, and the panel has not been touched,
    neither over SPI nor through a GPIO line. *)
Theorem hw_init_failure (e : env) :
  init_ok e = false →
  fst (fst (hw_init e initial_globals)) = -1 ∧
  transfers (snd (hw_init e initial_globals)) = [] ∧
  gpio_sets (snd (hw_init e initial_globals)) = [] ∧
  stderr_lines (snd (hw_init e initial_globals))
  = [ if env_open_spi e <? 0 then "open spi"
      else if env_open_gpio e <? 0 then "open gpiochip0"
      else "GPIO_V2_GET_LINE_IOCTL" ] ∧
  opened (snd (hw_init e initial_globals))
  = (if env_open_spi e <? 0 then []
     else if env_open_gpio e <? 0 then [env_open_spi e]
     else match env_line_dc e with
          | None => [env_open_spi e; env_open_gpio e]
          | Some d => [env_open_spi e; env_open_gpio e; d]
          end).
Proof.
  destruct e as [spi gpio dc rst]. unfold hw_init, init_ok.
  cbn -[ssd1351_init Z.ltb Z.leb]. intros Hok.
  destruct (Z.ltb_spec spi 0) as [Hs|Hs].
  { cbn -[Z.leb]. rewrite (proj2 (Z.leb_gt 0 spi)) by lia. by repeat split. }
  rewrite (proj2 (Z.leb_le 0 spi)) in Hok by lia.
  destruct (Z.ltb_spec gpio 0) as [Hg|Hg].
  { cbn -[Z.leb].
    rewrite (proj2 (Z.leb_gt 0 gpio)), (proj2 (Z.leb_le 0 spi)) by lia.
    by repeat split. }
  rewrite (proj2 (Z.leb_le 0 gpio)) in Hok by lia.
  destruct dc as [d|]; cbn -[ssd1351_init Z.ltb Z.leb].
  2:{ change (-1 <? 0) with true. cbn -[Z.leb].
      rewrite (proj2 (Z.leb_le 0 gpio)), (proj2 (Z.leb_le 0 spi)) by lia.
      by repeat split. }
  change (0 <? 0) with false. cbv iota.
  destruct rst as [r|]; [by cbn in Hok|].
  cbn -[ssd1351_init Z.ltb Z.leb]. change (-1 <? 0) with true. cbn -[Z.leb].
  rewrite (proj2 (Z.leb_le 0 gpio)), (proj2 (Z.leb_le 0 spi)) by lia.
  by repeat split.
Qed.

(** The GPIO chip cannot be opened. *)
Lemma hw_init_failure_no_chip :
  fst (fst (hw_init {| env_open_spi := 3; env_open_gpio := -1;
                       env_line_dc := Some 5; env_line_rst := Some 6 |}
                    initial_globals)) = -1 ∧
  stderr_lines (snd (hw_init {| env_open_spi := 3; env_open_gpio := -1;
                                env_line_dc := Some 5; env_line_rst := Some 6 |}
                             initial_globals))
  = ["open gpiochip0"].
Proof.
  destruct (hw_init_failure {| env_open_spi := 3; env_open_gpio := -1;
                               env_line_dc := Some 5; env_line_rst := Some 6 |})
    as (Hrc & _ & _ & Herr & _); [reflexivity|].
  split; [exact Hrc | exact Herr].
Defined.

(** ** Ownership of descriptors *)

Lemma hw_init_owned (e : env) (fd : Z) :
  fd ∈ closes (hw_cleanup (snd (fst (hw_init e initial_globals)))) →
  fd ∈ opened (snd (hw_init e initial_globals)).
Proof.
  destruct e as [spi gpio dc rst]. unfold hw_init, hw_cleanup.
  cbn -[ssd1351_init Z.ltb Z.leb].
  destruct (Z.ltb_spec spi 0) as [Hs|Hs].
  { cbn -[Z.leb]. by rewrite (proj2 (Z.leb_gt 0 spi)) by lia. }
  destruct (Z.ltb_spec gpio 0) as [Hg|Hg].
  { cbn -[Z.leb].
    rewrite (proj2 (Z.leb_gt 0 gpio)), (proj2 (Z.leb_le 0 spi)) by lia.
    cbn. rewrite !elem_of_cons. tauto. }
  destruct dc as [d|]; cbn -[ssd1351_init Z.ltb Z.leb].
  2:{ change (-1 <? 0) with true. cbn -[Z.leb].
      rewrite (proj2 (Z.leb_le 0 gpio)), (proj2 (Z.leb_le 0 spi)) by lia.
      cbn. rewrite !elem_of_cons. tauto. }
  change (0 <? 0) with false. cbv iota.
  destruct rst as [r|]; cbn -[ssd1351_init Z.ltb Z.leb].
  - change (0 <? 0) with false. cbn -[ssd1351_init Z.ltb Z.leb].
    rewrite ?closes_app, ?opened_app, ?opened_init.
    rewrite (proj2 (Z.leb_le 0 gpio)), (proj2 (Z.leb_le 0 spi)) by lia.
    destruct (0 <? d), (0 <? r); cbn -[ssd1351_init];
      rewrite ?opened_init, ?elem_of_app, ?elem_of_cons; tauto.
  - change (-1 <? 0) with true. cbn -[Z.leb Z.ltb].
    rewrite ?closes_app.
    rewrite (proj2 (Z.leb_le 0 gpio)), (proj2 (Z.leb_le 0 spi)) by lia.
    destruct (0 <? d); cbn; rewrite ?elem_of_app, ?elem_of_cons; tauto.
Qed.

(** X17. Whatever the kernel answers during start-up, over a whole run
    the process closes only descriptors that were handed out to it in
    this run, and closes nothing before the call of [hw_cleanup] that
    ends the run. *)
Theorem main_closes_owned (welcome_image : list Z) (e : env) (n : nat) :
  ∃ st g tr0,
    main welcome_image e n = Ok (st, tr0 ++ hw_cleanup g) ∧
    closes tr0 = [] ∧
    ∀ fd, fd ∈ closes (tr0 ++ hw_cleanup g) → fd ∈ opened (tr0 ++ hw_cleanup g).
Proof.
  destruct (main_unfold welcome_image e n)
    as (g & ev1 & Hinit & Hcl & _ & _ & _ & loop_ev & Hbus & Hmain).
  pose proof (hw_init_owned e) as Hown. rewrite Hinit in Hown.
  cbn [fst snd] in Hown.
  destruct (bus_quiet _ Hbus) as (Hc1 & _ & Ho1).
  destruct (bus_quiet _ (ssd1351_cmd_bus g 0xAF)) as (Hc2 & _ & Ho2).
  destruct (hw_cleanup_quiet g) as [_ Ho3].
  destruct (init_ok e).
  - exists 0, g,
      ([Signal_install "SIGTERM"; Signal_install "SIGINT"]
         ++ ev1 ++ ssd1351_cmd g 0xAF ++ loop_ev).
    rewrite Hmain. split; [by rewrite <- !app_assoc|].
    rewrite !closes_app, !opened_app, Hcl, Hc1, Hc2, Ho1, Ho2, Ho3.
    cbn [closes opened app]. rewrite !app_nil_r. split; [done|]. exact Hown.
  - exists 1, g,
      ([Signal_install "SIGTERM"; Signal_install "SIGINT"]
         ++ ev1 ++ [Stderr init_failed_msg]).
    rewrite Hmain. split; [by rewrite <- !app_assoc|].
    rewrite !closes_app, !opened_app, Hcl, Ho3.
    cbn [closes opened app]. rewrite !app_nil_r. split; [done|]. exact Hown.
Qed.

(** ** What the panel sees of a whole run *)

Lemma wire_app (dc : Z) (lvl : bool) (a b : list event) :
  wire dc lvl (a ++ b) = wire dc lvl a ++ wire dc (dc_level dc lvl a) b.
Proof.
  revert lvl. induction a as [|ev a IH]; intros lvl; [done|].
  destruct ev; cbn [app wire dc_level]; rewrite ?IH; try done.
  - by destruct (fd =? dc).
  - by rewrite app_assoc.
Qed.

Lemma wire_flush_app (g : globals) (lvl : bool) (rest : list event) :
  length (framebuf g) = NPIX →
  wire (dc_req g) lvl (ssd1351_flush g ++ rest)
  = flush_stream (framebuf g) ++ wire (dc_req g) true rest.
Proof.
  intros Hlen. unfold ssd1351_flush. rewrite <- !app_assoc.
  repeat first [rewrite wire_cmd | rewrite wire_data].
  rewrite flush_buf_frame by done. unfold flush_stream.
  by rewrite <- !app_assoc.
Qed.

Lemma wire_quiet (dc : Z) (lvl : bool) (tr : list event) :
  transfers tr = [] → wire dc lvl tr = [].
Proof.
  revert lvl. induction tr as [|ev tr IH]; intros lvl Htr; [done|].
  destruct ev; cbn [wire transfers] in *; try (by apply IH); try done.
  destruct (fd =? dc); by apply IH.
Qed.

Lemma main_loop_wire (welcome_image : list Z) (n : nat) (g : globals)
  (st : Z * Z) (lvl : bool) :
  length welcome_image = NPIX → length (framebuf g) = NPIX → anim_ok st →
  ∃ g' ev,
    main_loop welcome_image n g st = Ok (g', ev) ∧
    dc_req g' = dc_req g ∧
    wire (dc_req g) lvl ev
    = concat (map (fun k => flush_stream
                              (frame_at welcome_image
                                 (fst (Nat.iter k (advance scanner_width) st)) 20))
                  (seq 0 n)).
Proof.
  intros Hw. revert g st lvl. induction n as [|n IH]; intros g st lvl Hg Hst.
  - by exists g, [].
  - destruct (draw_scanner_frame_at welcome_image g (fst st) 20)
      as (Hdraw & Hlen & _); [done | done | destruct Hst; lia |].
    set (g1 := set_framebuf (frame_at welcome_image (fst st) 20) g) in *.
    destruct (IH g1 (advance scanner_width st) true)
      as (g' & ev & Hrun & Hdc & Hwire);
      [done | by apply anim_ok_advance |].
    exists g', (ssd1351_flush g1 ++ msleep 30 ++ ev).
    split; [|split].
    + assert (Hdraw' : draw_scanner welcome_image g (fst st) scanner_width
                       = Ok (g1, ssd1351_flush g1)) by exact Hdraw.
      cbn [main_loop]. rewrite Hdraw', bind_Ok, Hrun, bind_Ok. reflexivity.
    + exact Hdc.
    + change (dc_req g) with (dc_req g1).
      rewrite wire_flush_app by done. cbn [msleep app wire].
      rewrite Hwire. cbn [seq map concat].
      rewrite <- seq_shift, map_map. f_equal. f_equal.
      apply map_ext. intros k. by rewrite Nat.iter_succ_r.
Qed.

Lemma main_success (welcome_image : list Z) (e : env) (n : nat) :
  init_ok e = true →
  ∃ g sys g' ev,
    env_line_dc e = Some (dc_req g) ∧ framebuf g = framebuf initial_globals ∧
    transfers sys = [] ∧ gpio_sets sys = [] ∧
    main_loop welcome_image n g (0, 1) = Ok (g', ev) ∧
    main welcome_image e n
    = Ok (0, [Signal_install "SIGTERM"; Signal_install "SIGINT"]
             ++ (sys ++ ssd1351_init g)
             ++ ssd1351_cmd g 0xAF ++ ev ++ hw_cleanup g').
Proof.
  intros Hok.
  destruct (hw_init_granted e Hok) as (d & r & Hd & Hr & Hs & Hgp & Hinit).
  set (g := {| spi_fd := env_open_spi e; gpio_fd := env_open_gpio e;
               dc_req := d; rst_req := r;
               framebuf := framebuf initial_globals |}) in *.
  destruct (main_loop_run welcome_image n g (0, 1))
    as (g' & ev & Hrun & _); [unfold anim_ok; cbn; lia|].
  eexists g, _, g', ev. split; [exact Hd|]. split; [reflexivity|].
  split; [|split; [|split; [exact Hrun|]]]; [| |].
  3:{ unfold main. rewrite Hinit. change (0 <? 0) with false. cbv iota.
      rewrite Hrun, bind_Ok. reflexivity. }
  - reflexivity.
  - reflexivity.
Qed.

Lemma wire_skip (dc : Z) (lvl : bool) (sys rest : list event) :
  transfers sys = [] → gpio_sets sys = [] →
  wire dc lvl (sys ++ rest) = wire dc lvl rest.
Proof.
  induction sys as [|ev sys IH]; intros Ht Hg; [done|].
  destruct ev; cbn [app wire transfers gpio_sets] in *;
    try (by apply IH); done.
Qed.

Lemma commands_app (a b : list (bool * Z)) :
  commands (a ++ b) = commands a ++ commands b.
Proof. unfold commands. by rewrite filter_app, map_app. Qed.

Lemma commands_flush_stream (fb : list Z) :
  commands (flush_stream fb)
  = [opcode SetColumn; opcode SetRow; opcode WriteRam].
Proof.
  unfold flush_stream. rewrite commands_app, commands_data. reflexivity.
Qed.

Lemma commands_frames (F : nat → list Z) (ks : list nat) :
  commands (concat (map (fun k => flush_stream (F k)) ks))
  = concat (replicate (length ks)
                      [opcode SetColumn; opcode SetRow; opcode WriteRam]).
Proof.
  induction ks as [|k ks IH]; [done|].
  cbn [map concat length replicate].
  by rewrite commands_app, commands_flush_stream, IH.
Qed.

(** X18. What the panel sees of a successful run of [n] iterations, from
    start to exit: the initialisation sequence, the display-on command,
    and then, for each iteration in turn, the addressing commands and
    the pixels of the frame composed at that iteration's position of the
    animation; nothing else.  So the display is switched on once, after
    the initialisation and before the first frame, and each frame costs
    three commands. *)
Theorem main_wire (welcome_image : list Z) (e : env) (n : nat) (lvl : bool) :
  length welcome_image = NPIX → init_ok e = true →
  ∃ tr d,
    main welcome_image e n = Ok (0, tr) ∧ env_line_dc e = Some d ∧
    wire d lvl tr
    = init_stream ++ [(false, opcode DisplayOn)]
      ++ concat (map (fun k => flush_stream
                                 (frame_at welcome_image (fst (anim_state k)) 20))
                     (seq 0 n)) ∧
    commands (wire d lvl tr)
    = commands init_stream ++ [opcode DisplayOn]
      ++ concat (replicate n [opcode SetColumn; opcode SetRow; opcode WriteRam]).
Proof.
  intros Hw Hok.
  destruct (main_success welcome_image e n Hok)
    as (g & sys & g' & ev & Hd & Hfb & Hts & Hgs & Hrun & Hmain).
  destruct (main_loop_wire welcome_image n g (0, 1) false)
    as (g'' & ev' & Hrun' & Hdc & Hwire);
    [done | rewrite Hfb; apply length_replicate | unfold anim_ok; cbn; lia |].
  rewrite Hrun in Hrun'. injection Hrun' as <- <-.
  eexists _, (dc_req g). split; [exact Hmain|]. split; [exact Hd|].
  match goal with |- ?w = ?rhs ∧ _ => assert (Hstream : w = rhs) end.
  { cbn [app wire]. rewrite <- app_assoc, (wire_skip _ _ sys) by done.
    rewrite wire_app, ssd1351_init_wire, wire_cmd, wire_app, Hwire.
    rewrite (wire_quiet _ _ (hw_cleanup g')).
    - rewrite app_nil_r. reflexivity.
    - unfold hw_cleanup. by repeat case_match. }
  split; [exact Hstream|].
  rewrite Hstream, !commands_app, commands_frames, length_seq. reflexivity.
Qed.

(** Two frames with all four handles granted. *)
Lemma main_wire_two_frames :
  ∃ tr d,
    main (replicate NPIX 0x1234)
         {| env_open_spi := 3; env_open_gpio := 4;
            env_line_dc := Some 5; env_line_rst := Some 6 |} 2
    = Ok (0, tr) ∧
    Some 5 = Some d ∧
    wire d false tr
    = init_stream ++ [(false, opcode DisplayOn)]
      ++ concat (map (fun k => flush_stream
                                 (frame_at (replicate NPIX 0x1234)
                                           (fst (anim_state k)) 20))
                     (seq 0 2)) ∧
    commands (wire d false tr)
    = commands init_stream ++ [opcode DisplayOn]
      ++ concat (replicate 2 [opcode SetColumn; opcode SetRow; opcode WriteRam]).
Proof.
  apply (main_wire (replicate NPIX 0x1234)
           {| env_open_spi := 3; env_open_gpio := 4;
              env_line_dc := Some 5; env_line_rst := Some 6 |} 2 false).
  - apply length_replicate.
  - reflexivity.
Defined.

(** ** How many frames a run draws *)

(** X19. A signal that arrives while the thread is about to test the
    flag stops the loop before another frame; one that arrives at any
    later point of an iteration lets that iteration finish.  With the
    signal delivered after [5 q + r] steps the run ends with exactly [q]
    frames composed and flushed in the first case ([r = 0]) and [q + 1]
    otherwise, and with the thread exited after one call of
    [hw_cleanup]. *)
Theorem loop_frames_at_exit (q r : nat) (later : list bool) :
  (r < 5)%nat → (6 ≤ length later)%nat →
  let s := Loop.run (replicate (5 * q + r) false ++ true :: later)
                    Loop.initial in
  Loop.at_pc s = Loop.Exited ∧
  Loop.composed s = (if (r =? 0)%nat then q else S q) ∧
  Loop.flushed s = (if (r =? 0)%nat then q else S q) ∧
  Loop.cleanups s = 1%nat ∧
  Loop.pos_dir s = (if (r =? 0)%nat then anim_state q else anim_state (S q)).
Proof.
  intros Hr Hlen s. subst s.
  rewrite run_app, (run_no_signal q r Hr). cbn [Loop.run].
  rewrite run_stopped by (by rewrite step_running).
  replace (length later) with ((length later - 6) + 6)%nat by lia.
  rewrite Nat.iter_add.
  do 5 (destruct r as [|r];
        [rewrite iter_exited by reflexivity; by cbn |]).
  lia.
Qed.

(** The signal arrives during the third frame's flush. *)
Lemma loop_frames_at_exit_third :
  let s := Loop.run (replicate (5 * 2 + 2) false ++ true :: replicate 6 false)
                    Loop.initial in
  Loop.at_pc s = Loop.Exited ∧
  Loop.composed s = 3%nat ∧ Loop.flushed s = 3%nat ∧
  Loop.cleanups s = 1%nat ∧ Loop.pos_dir s = anim_state 3.
Proof.
  apply (loop_frames_at_exit 2 2 (replicate 6 false)).
  - lia.
  - cbn. lia.
Defined.

(** ** Where the arithmetic of the gradient is defined *)

(** X20. The only undefined behaviour [draw_scanner]'s arithmetic can
    run into is signed overflow, and exactly in two places: the
    subtraction [x - center], and the product [dist * 31] when the test
    [dist < scanner_width] has passed.  For a centre and a width that
    are [int]s, the colour of a column is defined if and only if neither
    of these overflows. *)
Theorem scanner_color_defined_iff (pos sw x : Z) :
  0 ≤ x < WIDTH → INT_MIN ≤ pos ≤ INT_MAX →
  (∃ c, scanner_color pos sw x = Ok c) ↔
  (x - pos ≤ INT_MAX ∧
   (Z.abs (x - pos) < sw → Z.abs (x - pos) * 31 ≤ INT_MAX)).
Proof.
  unfold WIDTH, INT_MIN, INT_MAX. intros Hx Hpos.
  unfold scanner_color, CInt.sub, CInt.abs, CInt.mul, CInt.div, check, in_int.
  unfold INT_MIN, INT_MAX.
  destruct (Z.leb_spec (x - pos) 2147483647) as [Hsub|Hsub].
  2:{ rewrite andb_false_r. cbn. split; [intros [c [=]] | lia]. }
  rewrite (proj2 (Z.leb_le (-2147483648) (x - pos))) by lia.
  cbn [andb]. rewrite bind_Ok.
  rewrite (proj2 (Z.leb_le (-2147483648) (Z.abs (x - pos)))) by lia.
  rewrite (proj2 (Z.leb_le (Z.abs (x - pos)) 2147483647)) by lia.
  cbn [andb]. rewrite bind_Ok.
  set (dist := Z.abs (x - pos)).
  assert (Hd : 0 ≤ dist) by (unfold dist; lia).
  destruct (Z.ltb_spec dist sw) as [Hlt|Hge].
  2:{ split; [intros _; split; [done | lia] | by eexists]. }
  rewrite (proj2 (Z.leb_le (-2147483648) (dist * 31))) by lia.
  cbn [andb].
  destruct (Z.leb_spec (dist * 31) 2147483647) as [Hmul|Hmul].
  2:{ cbn. split; [intros [c [=]] | lia]. }
  rewrite bind_Ok.
  destruct (Z.eqb_spec sw 0) as [->|Hnz]; [lia|].
  rewrite Z.quot_div_nonneg by lia.
  assert (Hq : 0 ≤ dist * 31 / sw < 31).
  { split; [apply Z.div_pos; lia|]. apply Z.div_lt_upper_bound; lia. }
  rewrite (proj2 (Z.leb_le (-2147483648) (dist * 31 / sw))) by lia.
  rewrite (proj2 (Z.leb_le (dist * 31 / sw) 2147483647)) by lia.
  cbn [andb]. rewrite bind_Ok.
  rewrite (proj2 (Z.leb_le (-2147483648) (31 - dist * 31 / sw))) by lia.
  rewrite (proj2 (Z.leb_le (31 - dist * 31 / sw) 2147483647)) by lia.
  cbn [andb]. rewrite bind_Ok.
  split; [intros _; split; [done | by intros _] | by eexists].
Qed.

(** The centre at [INT_MIN]: the subtraction overflows in every column. *)
Lemma scanner_color_defined_iff_int_min :
  (∃ c, scanner_color INT_MIN 20 0 = Ok c) ↔
  (0 - INT_MIN ≤ INT_MAX ∧
   (Z.abs (0 - INT_MIN) < 20 → Z.abs (0 - INT_MIN) * 31 ≤ INT_MAX)).
Proof.
  apply (scanner_color_defined_iff INT_MIN 20 0);
    unfold WIDTH, INT_MIN, INT_MAX; lia.
Defined.
